(** * expressBookReviews: the book-review REST API, embedded and verified

    The development follows the repository file by file:

    - [JS]        the fragment of JavaScript the handlers rely on: strings as
                  sequences of UTF-16 code units, truthiness, [trim],
                  [includes], and plain objects used as maps, with the
                  properties every object literal inherits from
                  [Object.prototype];
    - [Booksdb]   router/booksdb.js, the catalog store;
    - [AuthUsers] router/auth_users.js, the credential store, login and the
                  three routes behind the gate;
    - [General]   router/general.js, the public routes;
    - [Index]     index.js, the gate ([authMiddleware]) and the order in
                  which the application mounts its layers;
    - [Spec]      the properties the theorems are stated with;
    - [Sample]    a concrete host (case mapping, token library, clock) and
                  concrete requests, on which the code is run.

    jsonwebtoken ([jwt.sign], [jwt.verify]) and [String.prototype.toLowerCase]
    are parameters of the code that calls them.

    Every store operation of booksdb.js runs its body in one timer callback,
    and every route continues in the microtask that follows it, so a request
    is one atomic step on the server state; the 50 ms delay is not modelled.
    Request bodies are modelled after parsing: they hold strings where the
    routes document strings, and a field may be absent. *)

From Stdlib Require Import String Ascii NArith ZArith QArith List Lia.
From stdpp Require Import base list gmap.
Import ListNotations.

Local Open Scope N_scope.
Set Warnings "-register-all".

(* ===================================================================== *)
(** * JavaScript values *)
(* ===================================================================== *)

Module JS.

(** A JavaScript string is a sequence of 16-bit code units; [length] is
    the [.length] property and [=] on lists is [===] on strings. *)
Abbreviation str := (list N).

(** An ASCII literal, one code unit per character. *)
Definition lit (s : string) : str :=
  map N_of_ascii (list_ascii_of_string s).

(** [!s] is [false] exactly for a non-empty string. *)
Definition truthy (s : str) : bool :=
  match s with [] => false | _ :: _ => true end.

(** A value that may be [undefined] (an absent body field, an optional
    property): [undefined] is falsy. *)
Definition truthy_opt (o : option str) : bool :=
  match o with Some s => truthy s | None => false end.

(** [a || b] on strings. *)
Definition or_else (a : option str) (b : str) : str :=
  match a with
  | Some s => if truthy s then s else b
  | None => b
  end.

(** White space and line terminators, the code units [trim] strips. *)
Definition is_space (c : N) : bool :=
  (9 <=? c) && (c <=? 13)
  || (c =? 32) || (c =? 160) || (c =? 5760)
  || (8192 <=? c) && (c <=? 8202)
  || (c =? 8232) || (c =? 8233) || (c =? 8239) || (c =? 8287)
  || (c =? 12288) || (c =? 65279).

Fixpoint trimStart (s : str) : str :=
  match s with
  | c :: s' => if is_space c then trimStart s' else s
  | [] => []
  end.

Definition trimEnd (s : str) : str := rev (trimStart (rev s)).

Definition trim (s : str) : str := trimEnd (trimStart s).

(** [s.startsWith(p)], the test [includes] makes at each index. *)
Fixpoint startsWith (s p : str) {struct p} : bool :=
  match p, s with
  | [], _ => true
  | a :: p', b :: s' => (a =? b) && startsWith s' p'
  | _ :: _, [] => false
  end.

(** [s.includes(p)]: [p] occurs in [s] at some index. *)
Fixpoint includes (s p : str) : bool :=
  startsWith s p ||
  match s with
  | [] => false
  | _ :: s' => includes s' p
  end.

(** [toLowerCase] is the host's Unicode case mapping and stays a
    parameter of the code that calls it.  On strings of code units below
    256 (Basic Latin and Latin-1) it maps unit by unit: A-Z and the
    accented capitals (192-222 but the sign 215) move up by 32. *)
Definition lower_latin1 (c : N) : N :=
  if (65 <=? c) && (c <=? 90)
     || (192 <=? c) && (c <=? 222) && negb (c =? 215)
  then c + 32 else c.

Definition latin1 (s : str) : Prop := Forall (λ c, c < 256) s.

(** ** Plain objects used as maps

    An object literal is modelled by its own properties, a [gmap] from
    property keys to values.  Reading [o[k]] falls back on
    [Object.prototype] when [o] has no own property [k]: for the names
    below the read yields an inherited member (a function, or
    [Object.prototype] itself for [__proto__]) instead of [undefined]. *)

Definition proto_key : str := lit "__proto__".

Definition Object_prototype : list str :=
  map lit
    [ "constructor"; "__defineGetter__"; "__defineSetter__";
      "hasOwnProperty"; "__lookupGetter__"; "__lookupSetter__";
      "isPrototypeOf"; "propertyIsEnumerable"; "toString"; "valueOf";
      "__proto__"; "toLocaleString" ]%string.

Definition inherited (k : str) : bool := bool_decide (k ∈ Object_prototype).

(** The result of a property read [o[k]]. *)
Inductive property (V : Type) : Type :=
| Own (v : V)          (* an own property of the object *)
| Inherited (k : str)  (* a member of Object.prototype *)
| Undefined.
Arguments Own {V} v.
Arguments Inherited {V} k.
Arguments Undefined {V}.

Definition get {V} (o : gmap str V) (k : str) : property V :=
  match o !! k with
  | Some v => Own v
  | None => if inherited k then Inherited k else Undefined
  end.

(** [o[k] = v].  [__proto__] is an accessor of [Object.prototype]: unless
    the object has an own property of that name, the assignment runs the
    setter, which creates no own property (a string is ignored, an object
    becomes the prototype). *)
Definition set {V} (o : gmap str V) (k : str) (v : V) : gmap str V :=
  if bool_decide (k = proto_key ∧ o !! k = None) then o else <[k := v]> o.

(** [delete o[k]] removes an own property and does nothing otherwise. *)
Definition del {V} (o : gmap str V) (k : str) : gmap str V := delete k o.

(** Truthiness of what a read returns: objects and functions are truthy,
    [undefined] is falsy, a string is truthy when it is not empty. *)
Definition truthy_obj {V} (p : property V) : bool :=
  match p with Undefined => false | _ => true end.

Definition truthy_str (p : property str) : bool :=
  match p with
  | Own s => truthy s
  | Inherited _ => true
  | Undefined => false
  end.

End JS.

(* ===================================================================== *)
(** * router/booksdb.js: the catalog store *)
(* ===================================================================== *)

Module Booksdb.
Import JS.

(** A book record.  [reviews] maps a username to that user's review. *)
Record Book : Type := mkBook {
  author : str;
  title : str;
  reviews : gmap str str;
  genre : list str;
  year : Z;
  rating : Q
}.

Definition with_reviews (b : Book) (r : gmap str str) : Book :=
  mkBook (author b) (title b) r (genre b) (year b) (rating b).

Definition seed (a t : str) (g : list string) (y : Z) (r : Q) : Book :=
  mkBook a t ∅ (map lit g) y r.

(** The seeded catalog; [books] in the source.  Property keys are
    strings: the literal's key [1] is the key "1". *)
Definition books : gmap str Book :=
  list_to_map
    [ (lit "1", seed (lit "Chinua Achebe") (lit "Things Fall Apart")
                  ["Fiction"; "Historical"]%string 1958 4.5%Q);
      (lit "2", seed (lit "Hans Christian Andersen") (lit "Fairy tales")
                  ["Fantasy"; "Children"]%string 1837 4.3%Q);
      (lit "3", seed (lit "Dante Alighieri") (lit "The Divine Comedy")
                  ["Epic Poetry"; "Classic"]%string 1320 4.7%Q);
      (lit "4", seed (lit "Unknown") (lit "The Epic Of Gilgamesh")
                  ["Epic Poetry"; "Ancient"]%string (-2100) 4.2%Q);
      (lit "5", seed (lit "Unknown") (lit "The Book Of Job")
                  ["Religious"; "Philosophy"]%string (-600) 4.4%Q);
      (lit "6", seed (lit "Unknown") (lit "One Thousand and One Nights")
                  ["Folklore"; "Fantasy"]%string 800 4.6%Q);
      (* "Njál's Saga": á is the code unit 225 *)
      (lit "7", seed (lit "Unknown") (lit "Nj" ++ [225] ++ lit "l's Saga")
                  ["Saga"; "Historical"]%string 1280 4.1%Q);
      (lit "8", seed (lit "Jane Austen") (lit "Pride and Prejudice")
                  ["Romance"; "Classic"]%string 1813 4.8%Q);
      (* "Honoré de Balzac", "Le Père Goriot": é is 233, è is 232 *)
      (lit "9", seed (lit "Honor" ++ [233] ++ lit " de Balzac")
                  (lit "Le P" ++ [232] ++ lit "re Goriot")
                  ["Realism"; "Fiction"]%string 1835 4.0%Q);
      (lit "10", seed (lit "Samuel Beckett")
                  (lit "Molloy, Malone Dies, The Unnamable, the trilogy")
                  ["Modernist"; "Philosophical"]%string 1951 4.2%Q) ].

(** The two errors the store rejects with; the route handlers tell them
    apart by their [message]. *)
Inductive DbError : Type :=
| BookNotFound (isbn : str)
| ReviewNotFound (username : str).

Definition message (e : DbError) : str :=
  match e with
  | BookNotFound isbn => lit "Book with ISBN " ++ isbn ++ lit " not found"
  | ReviewNotFound username => lit "No review found for user " ++ username
  end.

(** How the promise an operation returns ends.  [Uncaught] is a
    [TypeError] thrown inside the timer callback: the promise is never
    settled and the exception reaches no handler. *)
Inductive settled (A : Type) : Type :=
| Resolved (a : A)
| Rejected (e : DbError)
| Uncaught.
Arguments Resolved {A} a.
Arguments Rejected {A} e.
Arguments Uncaught {A}.

Definition getAllBooks (bs : gmap str Book) : settled (gmap str Book) :=
  Resolved bs.

(** [books[isbn]] is resolved whenever it is truthy, be it a book or a
    member of [Object.prototype]. *)
Definition getBookByISBN (bs : gmap str Book) (isbn : str)
  : settled (property Book) :=
  let book := get bs isbn in
  if truthy_obj book then Resolved book else Rejected (BookNotFound isbn).

Section Search.
(** [String.prototype.toLowerCase], the host's Unicode case mapping. *)
Variable toLowerCase : str → str.

(** The [for (const isbn in books)] loop visits the own keys of
    [books]; [results[isbn] = books[isbn]] is a property write. *)
Definition searchByAuthor (bs : gmap str Book) (author_q : str)
  : gmap str Book :=
  map_fold
    (λ isbn book results,
       if includes (toLowerCase (author book)) (toLowerCase author_q)
       then set results isbn book else results)
    ∅ bs.

Definition searchByTitle (bs : gmap str Book) (title_q : str)
  : gmap str Book :=
  map_fold
    (λ isbn book results,
       if includes (toLowerCase (title book)) (toLowerCase title_q)
       then set results isbn book else results)
    ∅ bs.
End Search.

(** [addReview]: the catalog after the call and how the promise ends.
    When [books[isbn]] is an inherited member, [books[isbn].reviews] is
    [undefined] and the write to one of its properties throws. *)
Definition addReview (bs : gmap str Book) (isbn username review : str)
  : gmap str Book * settled Book :=
  match get bs isbn with
  | Undefined => (bs, Rejected (BookNotFound isbn))
  | Inherited _ => (bs, Uncaught)
  | Own book =>
      let book' := with_reviews book (set (reviews book) username review) in
      (<[isbn := book']> bs, Resolved book')
  end.

(** [deleteReview]: the second guard, [!books[isbn].reviews[username]],
    tests the truthiness of what the read returns. *)
Definition deleteReview (bs : gmap str Book) (isbn username : str)
  : gmap str Book * settled Book :=
  match get bs isbn with
  | Undefined => (bs, Rejected (BookNotFound isbn))
  | Inherited _ => (bs, Uncaught)
  | Own book =>
      if negb (truthy_str (get (reviews book) username))
      then (bs, Rejected (ReviewNotFound username))
      else
        let book' := with_reviews book (del (reviews book) username) in
        (<[isbn := book']> bs, Resolved book')
  end.

(** [getReviews] resolves with [books[isbn].reviews]; that is [undefined]
    ([None]) when [books[isbn]] is an inherited member. *)
Definition getReviews (bs : gmap str Book) (isbn : str)
  : settled (option (gmap str str)) :=
  match get bs isbn with
  | Undefined => Rejected (BookNotFound isbn)
  | Inherited _ => Resolved None
  | Own book => Resolved (Some (reviews book))
  end.

End Booksdb.

(* ===================================================================== *)
(** * Requests and responses *)
(* ===================================================================== *)

Module Http.
Import JS.

(** The JSON values the handlers pass to [res.json].  A field whose value
    is [JUndefined] is dropped when the body is serialised. *)
Inductive json : Type :=
| JUndefined
| JBool (b : bool)
| JNum (n : Z)
| JReal (q : Q)
| JStr (s : str)
| JObj (fields : list (string * json))
| JList (items : list json)
| JBook (b : property Booksdb.Book)
| JBooks (bs : gmap str Booksdb.Book)
| JReviews (rs : gmap str str).

(** The value of a field of an object literal, [None] when it has none. *)
Fixpoint field (name : string) (fs : list (string * json)) : option json :=
  match fs with
  | [] => None
  | (n, v) :: fs' => if String.eqb n name then Some v else field name fs'
  end.

Definition field_of (name : string) (j : json) : option json :=
  match j with JObj fs => field name fs | _ => None end.

(** [res.status(code).json(body)]. *)
Record Response : Type := mkResponse {
  status : N;
  body : list (string * json)
}.

(** The request methods.  OPTIONS, which an Express router answers by
    itself for the paths it knows, is left out. *)
Inductive Method : Type := GET | HEAD | POST | PUT | PATCH | DELETE.

Definition method_name (m : Method) : str :=
  match m with
  | GET => lit "GET" | HEAD => lit "HEAD" | POST => lit "POST"
  | PUT => lit "PUT" | PATCH => lit "PATCH" | DELETE => lit "DELETE"
  end.

(** The method a route is looked up under: Express hands a HEAD request
    to the GET route of its path. *)
Definition handled_as (m : Method) : Method :=
  match m with HEAD => GET | _ => m end.

(** The parsed body: the three fields the handlers destructure, each
    absent or a JSON string.  The handlers do not check the type of a
    field; a body in which one of the three holds another JSON value (a
    number, a boolean, an array, an object) is outside this model, and so
    are the states such a request leaves. *)
Record Body : Type := mkBody {
  body_username : option str;
  body_password : option str;
  body_review : option str
}.

(** A request: its method, its path and its parsed body.  The path is
    cut at its slashes, the leading one apart: /customer/auth/profile is
    ["customer"; "auth"; "profile"], a slash at the end leaves an empty
    last segment and two slashes in a row an empty segment between them;
    the path / is the empty list, or the list of one empty segment.  A
    segment that a route reads as a parameter stands as the route receives
    it, percent-decoded. *)
Record Request : Type := mkRequest {
  method : Method;
  path : list str;
  req_body : Body
}.

(** ** How Express matches a path

    The application and its routers run with Express's defaults: the
    regular expression of a route carries the [i] flag and ends in
    [\/?$].  Under [i] a letter a-z or A-Z of the pattern matches that
    letter in either case, and nothing else does. *)
Definition upper_ascii (c : N) : N :=
  if (97 <=? c) && (c <=? 122) then c - 32 else c.

(** The segment [seg] matches the literal segment [name] of a route. *)
Definition names (seg : str) (name : string) : bool :=
  bool_decide (map upper_ascii seg = map upper_ascii (lit name)).

(** One slash at the end of a path is ignored ([\/?$]). *)
Fixpoint unslash (p : list str) : list str :=
  match p with
  | [] => []
  | [[]] => []
  | seg :: rest => seg :: unslash rest
  end.

(** What a router mounted with [app.use("/customer", router)] sees of the
    path behind the mount point.  The mount point's expression,
    [^\/customer\/?(?=\/|$)], takes a slash after /customer when another
    slash (or the end) follows, and Express cuts what it matched off the
    path: of /customer//auth/profile the router sees /auth/profile. *)
Definition mounted (rest : list str) : list str :=
  match rest with
  | [] :: further => further
  | _ => rest
  end.

(** [req.path] as text. *)
Definition path_text (p : list str) : str :=
  match p with
  | [] => lit "/"
  | _ => concat (map (λ seg, lit "/" ++ seg) p)
  end.

(** What the host's clock answers during one request: [Date.now()] in
    milliseconds, [new Date().toISOString()] and [process.uptime()]. *)
Record Clock : Type := mkClock {
  Date_now : Z;
  toISOString : str;
  uptime : Q
}.

(** [process.env]. *)
Record Env : Type := mkEnv {
  JWT_SECRET : option str;
  NODE_ENV : option str
}.

(** [req.session.authorization], as the login route stores it. *)
Record Authorization : Type := mkAuthorization {
  accessToken : str;
  auth_username : str;
  loggedInAt : str
}.

(** The session of the client that sent the request: its
    [authorization] entry, [None] while it is [undefined]. *)
Abbreviation Session := (option Authorization).

(** How a handler ends: it sends a response, hands an exception to
    [next] (or throws it synchronously, which Express treats alike), or
    leaves the process with an uncaught exception. *)
Inductive Outcome : Type :=
| Reply (r : Response)
| NextError (msg : str)
| Crash.

Definition reply (code : N) (fields : list (string * json)) : Outcome :=
  Reply (mkResponse code fields).

(** The message of the [TypeError] a read of [undefined.username]
    raises. *)
Definition undefined_username : str :=
  lit "Cannot read properties of undefined (reading 'username')".

(** ** jsonwebtoken *)

(** The claims the login route signs. *)
Record Payload : Type := mkPayload {
  claim_username : str;
  iat : Z;
  exp : Z
}.

(** What [jwt.verify] passes to its callback: the decoded claims, or an
    error, of which the gate reads the [name]. *)
Inductive Verdict : Type :=
| Decoded (claims : Payload)
| VerifyError (name : str).

End Http.

(* ===================================================================== *)
(** * router/auth_users.js: credentials, login and the gated routes *)
(* ===================================================================== *)

Module AuthUsers.
Import JS Http.

Record User : Type := mkUser {
  username : str;
  password : str;
  registeredAt : str
}.

(** [let users = []]: the in-memory user store when the process starts. *)
Definition users : list User := [].

(** The class [[a-zA-Z0-9_]]. *)
Definition is_word (c : N) : bool :=
  (97 <=? c) && (c <=? 122) || (65 <=? c) && (c <=? 90)
  || (48 <=? c) && (c <=? 57) || (c =? 95).

(** [/^[a-zA-Z0-9_]{3,30}$/.test(username)]; without the [m] flag [$]
    matches at the end of the input only. *)
Definition isValidUsername (u : str) : bool :=
  forallb is_word u && (3 <=? length u)%nat && (length u <=? 30)%nat.

Record Validation : Type := mkValidation {
  success : bool;
  why : option str   (* the [message] field, absent on success *)
}.

Definition validatePassword (p : str) : Validation :=
  if (length p <? 6)%nat then
    mkValidation false (Some (lit "Password must be at least 6 characters long"))
  else if (100 <? length p)%nat then
    mkValidation false (Some (lit "Password must be less than 100 characters"))
  else mkValidation true None.

(** [users.some(user => user.username === username &&
                        user.password === password)]. *)
Definition authenticateUser (us : list User) (u p : str) : bool :=
  existsb (λ user, bool_decide (username user = u)
                   && bool_decide (password user = p)) us.

(** The 400 body both [/register] and [/login] send when a field is
    missing or empty. *)
Definition credentials_required (u p : option str) : Outcome :=
  reply 400
    [ ("success", JBool false);
      ("message", JStr (lit "Username and password are required"));
      ("errors", JObj
         [ ("username", if negb (truthy_opt u)
                        then JStr (lit "Username is required") else JUndefined);
           ("password", if negb (truthy_opt p)
                        then JStr (lit "Password is required") else JUndefined) ]) ]%string.

Definition invalid_username_format : Outcome :=
  reply 400
    [ ("success", JBool false);
      ("message", JStr (lit "Invalid username format"));
      ("errors", JObj
         [ ("username", JStr (lit
             "Username must be 3-30 alphanumeric characters (underscores allowed)")) ]) ]%string.

(** [process.env.JWT_SECRET || "access"]. *)
Definition secret (env : Env) : str := or_else (JWT_SECRET env) (lit "access").

Section Login.
(** [jwt.sign(payload, secret, { algorithm: 'HS256' })]. *)
Variable jwt_sign : Payload → str → str.

(** POST /customer/login: the session after the request and the
    outcome. *)
Definition login (env : Env) (clock : Clock) (us : list User)
    (sess : Session) (b : Body) : Session * Outcome :=
  match body_username b, body_password b with
  | Some u, Some p =>
      if negb (truthy u) || negb (truthy p) then
        (sess, credentials_required (Some u) (Some p))
      else if negb (isValidUsername u) then (sess, invalid_username_format)
      else if negb (authenticateUser us u p) then
        (sess, reply 401
           [ ("success", JBool false);
             ("message", JStr (lit "Invalid username or password"));
             ("error", JStr (lit "AUTH_FAILED")) ]%string)
      else
        let now := (Date_now clock / 1000)%Z in
        let tokenPayload := mkPayload u now (now + 60 * 60)%Z in
        let token := jwt_sign tokenPayload (secret env) in
        (Some (mkAuthorization token u (toISOString clock)),
         reply 200
           [ ("success", JBool true);
             ("message", JStr (lit "Login successful"));
             ("data", JObj
                [ ("username", JStr u);
                  ("token", JStr token);
                  ("expiresIn", JStr (lit "1 hour")) ]) ]%string)
  | u, p => (sess, credentials_required u p)
  end.
End Login.

(** [v === s] for what a property read returned and a string. *)
Definition strict_eq (v : property str) (s : str) : bool :=
  match v with
  | Own t => bool_decide (t = s)
  | _ => false
  end.

(** PUT /customer/auth/review/:isbn. *)
Definition put_review (clock : Clock) (bs : gmap str Booksdb.Book)
    (sess : Session) (isbn : str) (b : Body)
  : gmap str Booksdb.Book * Outcome :=
  match sess with
  | None => (bs, NextError undefined_username)
  | Some a =>
      let username := auth_username a in
      let required :=
        reply 400
          [ ("success", JBool false);
            ("message", JStr (lit "Review content is required and cannot be empty"));
            ("error", JStr (lit "REVIEW_CONTENT_REQUIRED")) ]%string in
      match body_review b with
      | None => (bs, required)
      | Some review =>
          if negb (truthy review) || (length (trim review) =? 0)%nat then
            (bs, required)
          else if (1000 <? length review)%nat then
            (bs, reply 400
               [ ("success", JBool false);
                 ("message", JStr (lit "Review must be less than 1000 characters"));
                 ("error", JStr (lit "REVIEW_TOO_LONG")) ]%string)
          else
            match Booksdb.addReview bs isbn username (trim review) with
            | (bs', Booksdb.Resolved updatedBook) =>
                let action :=
                  if strict_eq (get (Booksdb.reviews updatedBook) username)
                               (trim review)
                  then lit "added" else lit "updated" in
                (bs', reply 200
                   [ ("success", JBool true);
                     ("message", JStr (lit "Review " ++ action ++ lit " successfully"));
                     ("data", JObj
                        [ ("isbn", JStr isbn);
                          ("username", JStr username);
                          ("review", JStr (trim review));
                          ("timestamp", JStr (toISOString clock));
                          ("action", JStr action) ]) ]%string)
            | (bs', Booksdb.Rejected dbError) =>
                (bs', reply 404
                   [ ("success", JBool false);
                     ("message", JStr (Booksdb.message dbError));
                     ("error", JStr (lit "BOOK_NOT_FOUND")) ]%string)
            | (bs', Booksdb.Uncaught) => (bs', Crash)
            end
      end
  end.

(** DELETE /customer/auth/review/:isbn. *)
Definition delete_review (clock : Clock) (bs : gmap str Booksdb.Book)
    (sess : Session) (isbn : str)
  : gmap str Booksdb.Book * Outcome :=
  match sess with
  | None => (bs, NextError undefined_username)
  | Some a =>
      let username := auth_username a in
      match Booksdb.deleteReview bs isbn username with
      | (bs', Booksdb.Resolved updatedBook) =>
          (bs', reply 200
             [ ("success", JBool true);
               ("message", JStr (lit "Review deleted successfully"));
               ("data", JObj
                  [ ("isbn", JStr isbn);
                    ("username", JStr username);
                    ("deletedAt", JStr (toISOString clock)) ]) ]%string)
      | (bs', Booksdb.Rejected dbError) =>
          let msg := Booksdb.message dbError in
          let statusCode := if includes msg (lit "not found") then 404 else 400 in
          (bs', reply statusCode
             [ ("success", JBool false);
               ("message", JStr msg);
               ("error", JStr (if includes msg (lit "No review")
                               then lit "REVIEW_NOT_FOUND"
                               else lit "BOOK_NOT_FOUND")) ]%string)
      | (bs', Booksdb.Uncaught) => (bs', Crash)
      end
  end.

(** The message of the [TypeError] that destructuring [undefined]
    raises. *)
Definition undefined_destructured : str :=
  lit "Cannot destructure property 'username' of 'req.session.authorization' as it is undefined.".

(** GET /customer/auth/profile. *)
Definition profile (us : list User) (sess : Session) : Outcome :=
  match sess with
  | None => NextError undefined_destructured
  | Some a =>
      let user := find (λ u, bool_decide (username u = auth_username a)) us in
      reply 200
        [ ("success", JBool true);
          ("data", JObj
             [ ("username", JStr (auth_username a));
               ("registeredAt",
                  JStr (or_else (registeredAt <$> user) (lit "Unknown")));
               ("lastLogin", JStr (loggedInAt a)) ]) ]%string
  end.

End AuthUsers.

(* ===================================================================== *)
(** * router/general.js: the public routes *)
(* ===================================================================== *)

Module General.
Import JS Http.
Import AuthUsers (User, mkUser, username).

(** POST /register: the user store after the request and the outcome.
    [authUtils.users] is the array auth_users.js exports, so the [push]
    is seen by [authenticateUser]. *)
Definition register (clock : Clock) (us : list User) (b : Body)
  : list User * Outcome :=
  match body_username b, body_password b with
  | Some u, Some p =>
      if negb (truthy u) || negb (truthy p) then
        (us, AuthUsers.credentials_required (Some u) (Some p))
      else if negb (AuthUsers.isValidUsername u) then
        (us, AuthUsers.invalid_username_format)
      else
        let passwordValidation := AuthUsers.validatePassword p in
        if negb (AuthUsers.success passwordValidation) then
          let msg := match AuthUsers.why passwordValidation with
                     | Some m => JStr m | None => JUndefined end in
          (us, reply 400
             [ ("success", JBool false);
               ("message", msg);
               ("errors", JObj [ ("password", msg) ]) ]%string)
        else
          let userExists := existsb (λ user, bool_decide (username user = u)) us in
          if userExists then
            (us, reply 409
               [ ("success", JBool false);
                 ("message", JStr (lit "Username already exists"));
                 ("error", JStr (lit "USERNAME_EXISTS")) ]%string)
          else
            let newUser := mkUser u p (toISOString clock) in
            (us ++ [newUser],
             reply 201
               [ ("success", JBool true);
                 ("message", JStr (lit "User registered successfully"));
                 ("data", JObj
                    [ ("username", JStr u);
                      ("registeredAt", JStr (AuthUsers.registeredAt newUser)) ]) ]%string)
  | u, p => (us, AuthUsers.credentials_required u p)
  end.

(** [Object.keys(o).length]. *)
Definition count {V} (o : gmap str V) : json := JNum (Z.of_nat (size o)).

(** GET /. *)
Definition get_all (clock : Clock) (bs : gmap str Booksdb.Book) : Outcome :=
  match Booksdb.getAllBooks bs with
  | Booksdb.Resolved all =>
      reply 200
        [ ("success", JBool true);
          ("message", JStr (lit "Books retrieved successfully"));
          ("data", JBooks all);
          ("count", count all);
          ("timestamp", JStr (toISOString clock)) ]%string
  | Booksdb.Rejected e => NextError (Booksdb.message e)
  | Booksdb.Uncaught => Crash
  end.

Definition missing (what code : string) : Outcome :=
  reply 400
    [ ("success", JBool false);
      ("message", JStr (lit what ++ lit " parameter is required"));
      ("error", JStr (lit code)) ]%string.

Definition book_not_found (msg isbn : str) : Outcome :=
  reply 404
    [ ("success", JBool false);
      ("message", JStr (or_else (Some msg) (lit "Book not found")));
      ("error", JStr (lit "BOOK_NOT_FOUND"));
      ("requestedIsbn", JStr isbn) ]%string.

(** GET /isbn/:isbn. *)
Definition get_isbn (bs : gmap str Booksdb.Book) (isbn : str) : Outcome :=
  if negb (truthy isbn) || bool_decide (trim isbn = []) then
    missing "ISBN" "MISSING_ISBN"
  else
    match Booksdb.getBookByISBN bs isbn with
    | Booksdb.Resolved book =>
        reply 200
          [ ("success", JBool true);
            ("message", JStr (lit "Book retrieved successfully"));
            ("data", JBook book);
            ("isbn", JStr isbn) ]%string
    | Booksdb.Rejected e => book_not_found (Booksdb.message e) isbn
    | Booksdb.Uncaught => Crash
    end.

(** The body of the two search routes, given the store's search. *)
Definition search_route (clock : Clock) (what code : string)
    (no_match : str) (search : str → gmap str Booksdb.Book) (q : str)
  : Outcome :=
  if negb (truthy q) || bool_decide (trim q = []) then missing what code
  else
    let matchingBooks := search (trim q) in
    if (size matchingBooks =? 0)%nat then
      reply 404
        [ ("success", JBool false);
          ("message", JStr (no_match ++ q ++ [34]));
          ("error", JStr (lit "NO_BOOKS_FOUND"));
          ("searchTerm", JStr q) ]%string
    else
      reply 200
        [ ("success", JBool true);
          ("message", JStr (lit "Books retrieved successfully"));
          ("data", JBooks matchingBooks);
          ("count", count matchingBooks);
          ("searchTerm", JStr q);
          ("timestamp", JStr (toISOString clock)) ]%string.

Section Search.
Variable toLowerCase : str → str.

(** GET /author/:author. *)
Definition get_author (clock : Clock) (bs : gmap str Booksdb.Book)
    (author : str) : Outcome :=
  search_route clock "Author" "MISSING_AUTHOR"
    (lit "No books found by author containing " ++ [34])
    (Booksdb.searchByAuthor toLowerCase bs) author.

(** GET /title/:title. *)
Definition get_title (clock : Clock) (bs : gmap str Booksdb.Book)
    (title : str) : Outcome :=
  search_route clock "Title" "MISSING_TITLE"
    (lit "No books found with title containing " ++ [34])
    (Booksdb.searchByTitle toLowerCase bs) title.
End Search.

(** GET /review/:isbn.  When the store resolves with [undefined],
    [Object.keys] throws inside [then] and the [catch] that follows
    answers 404 with the exception's message. *)
Definition get_review (bs : gmap str Booksdb.Book) (isbn : str) : Outcome :=
  if negb (truthy isbn) || bool_decide (trim isbn = []) then
    missing "ISBN" "MISSING_ISBN"
  else
    match Booksdb.getReviews bs isbn with
    | Booksdb.Resolved (Some reviews) =>
        let reviewCount := size reviews in
        reply 200
          [ ("success", JBool true);
            ("message", JStr (if (reviewCount =? 0)%nat
                              then lit "No reviews found for this book"
                              else lit "Reviews retrieved successfully"));
            ("data", JReviews reviews);
            ("isbn", JStr isbn);
            ("count", JNum (Z.of_nat reviewCount));
            ("hasReviews", JBool (0 <? reviewCount)%nat) ]%string
    | Booksdb.Resolved None =>
        book_not_found (lit "Cannot convert undefined or null to object") isbn
    | Booksdb.Rejected e => book_not_found (Booksdb.message e) isbn
    | Booksdb.Uncaught => Crash
    end.

(** GET /health, as the public router answers it. *)
Definition health (clock : Clock) : Outcome :=
  reply 200
    [ ("success", JBool true);
      ("message", JStr (lit "Service is healthy"));
      ("timestamp", JStr (toISOString clock));
      ("service", JStr (lit "Book Review API"));
      ("version", JStr (lit "1.0.0")) ]%string.

Definition endpoint (m p d : string) : json :=
  JObj [ ("method", JStr (lit m)); ("path", JStr (lit p));
         ("description", JStr (lit d)) ]%string.

(** GET /api-docs. *)
Definition api_docs : Outcome :=
  reply 200
    [ ("success", JBool true);
      ("data", JObj
         [ ("service", JStr (lit "Book Review API"));
           ("version", JStr (lit "1.0.0"));
           ("description", JStr (lit
              "RESTful API for managing book reviews with JWT authentication"));
           ("endpoints", JObj
              [ ("public", JList
                   [ endpoint "GET" "/" "Get all books";
                     endpoint "GET" "/isbn/:isbn" "Get book by ISBN";
                     endpoint "GET" "/author/:author" "Search books by author";
                     endpoint "GET" "/title/:title" "Search books by title";
                     endpoint "GET" "/review/:isbn" "Get book reviews";
                     endpoint "POST" "/register" "Register new user";
                     endpoint "GET" "/health" "Service health check" ]);
                ("authenticated", JList
                   [ endpoint "POST" "/customer/login" "User login";
                     endpoint "PUT" "/customer/auth/review/:isbn" "Add/update review";
                     endpoint "DELETE" "/customer/auth/review/:isbn" "Delete review";
                     endpoint "GET" "/customer/auth/profile" "Get user profile" ]) ]);
           ("authentication", JStr (lit
              "JWT token required for authenticated endpoints"));
           ("note", JStr (lit "Use the login endpoint to obtain a JWT token")) ]) ]%string.

End General.

(* ===================================================================== *)
(** * index.js: the gate and the application *)
(* ===================================================================== *)

Module Index.
Import JS Http.

(** The server's in-memory state: the array [users] of auth_users.js and
    the object [books] of booksdb.js. *)
Record Store : Type := mkStore {
  st_users : list AuthUsers.User;
  st_books : gmap str Booksdb.Book
}.

(** The state when the process starts. *)
Definition boot : Store := mkStore AuthUsers.users Booksdb.books.

(** What a layer does with a request: it calls [next()], with [req.user]
    as it leaves it, or it ends the request. *)
Inductive Step : Type :=
| Next (user : option Payload)
| Done (st : Store) (sess : Session) (out : Outcome).

Section App.
(** jsonwebtoken and the host's case mapping.  [jwt_verify token secret
    now] is [jwt.verify] run when the clock reads [now] milliseconds. *)
Variable jwt_sign : Payload → str → str.
Variable jwt_verify : str → str → Z → Verdict.
Variable toLowerCase : str → str.

Variable env : Env.
Variable clock : Clock.

(** [authMiddleware]: what it sends, or the claims it attaches to the
    request before it calls [next()]. *)
Definition authMiddleware (sess : Session) : Response + Payload :=
  match sess with
  | Some authorization =>
      let token := accessToken authorization in
      match jwt_verify token (AuthUsers.secret env) (Date_now clock) with
      | VerifyError name =>
          inl (mkResponse 403
            [ ("success", JBool false);
              ("message", JStr (lit "Authentication failed. Please log in again."));
              ("error", JStr (if bool_decide (name = lit "TokenExpiredError")
                              then lit "Token expired"
                              else lit "Invalid token")) ]%string)
      | Decoded decoded => inr decoded
      end
  | None =>
      inl (mkResponse 401
        [ ("success", JBool false);
          ("message", JStr (lit "Authentication required. Please log in."));
          ("error", JStr (lit "No active session")) ]%string)
  end.

(** Whether a path lies under /customer/auth/: the expression Express
    builds for the mount path of the gate, a star after /customer/auth/,
    matches the paths that begin with /customer/auth/, whatever the case
    of the letters. *)
Definition under_auth (p : list str) : bool :=
  match p with
  | c :: a :: _ :: _ => names c "customer" && names a "auth"
  | _ => false
  end.

(** [app.use("/customer/auth/*", authMiddleware)]. *)
Definition gate (st : Store) (sess : Session) (req : Request) : Step :=
  if under_auth (path req) then
    match authMiddleware sess with
    | inl r => Done st sess (Reply r)
    | inr decoded => Next (Some decoded)
    end
  else Next None.

(** [app.use("/customer", customerRoutes)]: the router answers the
    four routes of auth_users.js and passes every other request on.  It
    matches them against what the mount point leaves of the path, so that
    /customer//auth/... reaches the routes under /auth although it does not
    lie under /customer/auth/. *)
Definition customerRoutes (st : Store) (sess : Session) (req : Request)
  : option (Store * Session * Outcome) :=
  match path req with
  | c :: rest =>
      if names c "customer" then
        match handled_as (method req), unslash (mounted rest) with
        | POST, [l] =>
            if names l "login" then
              let '(sess', out) :=
                AuthUsers.login jwt_sign env clock (st_users st) sess (req_body req) in
              Some (st, sess', out)
            else None
        | PUT, [a; r; isbn] =>
            if names a "auth" && names r "review" && truthy isbn then
              let '(bs, out) :=
                AuthUsers.put_review clock (st_books st) sess isbn (req_body req) in
              Some (mkStore (st_users st) bs, sess, out)
            else None
        | DELETE, [a; r; isbn] =>
            if names a "auth" && names r "review" && truthy isbn then
              let '(bs, out) :=
                AuthUsers.delete_review clock (st_books st) sess isbn in
              Some (mkStore (st_users st) bs, sess, out)
            else None
        | GET, [a; p] =>
            if names a "auth" && names p "profile" then
              Some (st, sess, AuthUsers.profile (st_users st) sess)
            else None
        | _, _ => None
        end
      else None
  | [] => None
  end.

(** [app.use("/", generalRoutes)]: mounted at the root, the router sees
    the whole path. *)
Definition generalRoutes (st : Store) (sess : Session) (req : Request)
  : option (Store * Session * Outcome) :=
  let answer out := Some (st, sess, out) in
  match handled_as (method req), unslash (path req) with
  | POST, [r] =>
      if names r "register" then
        let '(us, out) := General.register clock (st_users st) (req_body req) in
        Some (mkStore us (st_books st), sess, out)
      else None
  | GET, [] => answer (General.get_all clock (st_books st))
  | GET, [h] =>
      if names h "health" then answer (General.health clock)
      else if names h "api-docs" then answer General.api_docs
      else None
  | GET, [k; v] =>
      if negb (truthy v) then None
      else if names k "isbn" then
        answer (General.get_isbn (st_books st) v)
      else if names k "author" then
        answer (General.get_author toLowerCase clock (st_books st) v)
      else if names k "title" then
        answer (General.get_title toLowerCase clock (st_books st) v)
      else if names k "review" then
        answer (General.get_review (st_books st) v)
      else None
  | _, _ => None
  end.

(** The global error handler, reached through [next(err)]; [stack] is
    sent outside production only. *)
Definition errorHandler (msg : str) : Response :=
  if bool_decide (NODE_ENV env = Some (lit "production")) then
    mkResponse 500
      [ ("success", JBool false);
        ("message", JStr (lit "Internal server error")) ]%string
  else
    mkResponse 500
      [ ("success", JBool false);
        ("message", JStr msg);
        ("stack", JStr msg) ]%string.

(** The catch-all mounted after the routers. *)
Definition notFound (req : Request) : Response :=
  mkResponse 404
    [ ("success", JBool false);
      ("message", JStr (lit "Route " ++ method_name (method req) ++ lit " "
                        ++ path_text (path req) ++ lit " not found"));
      ("suggestion", JStr (lit
         "Check the API documentation for available endpoints")) ]%string.

(** [app.get('/health', ...)] of index.js, registered after the
    catch-all. *)
Definition app_health (req : Request) : option Response :=
  match handled_as (method req), unslash (path req) with
  | GET, [h] =>
      if names h "health" then
        Some (mkResponse 200
          [ ("success", JBool true);
            ("message", JStr (lit "Service is healthy"));
            ("timestamp", JStr (toISOString clock));
            ("uptime", JReal (uptime clock)) ]%string)
      else None
  | _, _ => None
  end.

(** A layer that may answer a request; [None] is [next()]. *)
Definition Layer : Type :=
  Store → Session → Request → option (Store * Session * Outcome).

(** The layers behind the gate, in the order index.js mounts them: the
    customer router, the public router, the catch-all, and last the
    application's own /health. *)
Definition layers : list Layer :=
  [ customerRoutes;
    generalRoutes;
    (λ st sess req, Some (st, sess, Reply (notFound req)));
    (λ st sess req, (λ r, (st, sess, Reply r)) <$> app_health req) ].

(** Express tries the layers in order; the first that answers ends the
    request. *)
Fixpoint dispatch (ls : list Layer) (st : Store) (sess : Session)
    (req : Request) : option (Store * Session * Outcome) :=
  match ls with
  | [] => None
  | l :: ls' =>
      match l st sess req with
      | Some r => Some r
      | None => dispatch ls' st sess req
      end
  end.

(** The layers run; an exception handed to [next] goes to the error
    handler, and a request no layer answers gets Express's own 404. *)
Definition routes (st : Store) (sess : Session) (req : Request)
  : Store * Session * Outcome :=
  match dispatch layers st sess req with
  | Some (st', sess', NextError msg) => (st', sess', Reply (errorHandler msg))
  | Some r => r
  | None => (st, sess, Reply (mkResponse 404 []))
  end.

(** One request served by the application. *)
Definition app (st : Store) (sess : Session) (req : Request)
  : Store * Session * Outcome :=
  match gate st sess req with
  | Done st' sess' out => (st', sess', out)
  | Next _ => routes st sess req
  end.

End App.

End Index.

(* ===================================================================== *)
(** * Properties stated about the code, and sample hosts *)
(* ===================================================================== *)

Module Spec.
Import JS Http.

(** [a] contains [s] as a case-insensitive substring: the lower-cased
    [s] occurs inside the lower-cased [a]. *)
Definition contains_ci (toLowerCase : str → str) (a s : str) : Prop :=
  ∃ pre post, toLowerCase a = pre ++ toLowerCase s ++ post.

(** A case mapping that is the host's on Basic Latin and Latin-1. *)
Definition exact_on_latin1 (toLowerCase : str → str) : Prop :=
  ∀ s, latin1 s → toLowerCase s = map lower_latin1 s.

(** No two stored users share a username. *)
Definition unique_usernames (us : list AuthUsers.User) : Prop :=
  NoDup (map AuthUsers.username us).

(** Some stored user has the username [u]. *)
Definition registered (us : list AuthUsers.User) (u : str) : Prop :=
  ∃ user, user ∈ us ∧ AuthUsers.username user = u.

(** A stored user whose name and password pass the two validators. *)
Definition well_formed (x : AuthUsers.User) : Prop :=
  AuthUsers.isValidUsername (AuthUsers.username x) = true
  ∧ AuthUsers.success (AuthUsers.validatePassword (AuthUsers.password x)) = true.

(** [b] is the seeded book [b0] but for its reviews, and none of its
    reviews is the empty text. *)
Definition reviewed_copy (b b0 : Booksdb.Book) : Prop :=
  b = Booksdb.with_reviews b0 (Booksdb.reviews b)
  ∧ map_Forall (λ _ text, text ≠ []) (Booksdb.reviews b).

(** A catalog that holds the seeded books under the seeded ISBNs, changed
    in their reviews only. *)
Definition seeded (bs : gmap str Booksdb.Book) : Prop :=
  ∀ isbn, option_Forall2 reviewed_copy (bs !! isbn) (Booksdb.books !! isbn).

(** The username shape: 3 to 30 characters, each a letter a-z or A-Z, a
    digit or an underscore. *)
Definition word_char (c : N) : Prop :=
  97 ≤ c ≤ 122 ∨ 65 ≤ c ≤ 90 ∨ 48 ≤ c ≤ 57 ∨ c = 95.

Definition username_shape (u : str) : Prop :=
  Forall word_char u ∧ (3 ≤ length u ≤ 30)%nat.

(** The password length rule: 6 to 100 characters. *)
Definition password_rule (p : str) : Prop := (6 ≤ length p ≤ 100)%nat.

Section Reach.
Variable jwt_sign : Payload → str → str.
Variable jwt_verify : str → str → Z → Verdict.
Variable toLowerCase : str → str.

(** The states the server can be in: the state at start, and the state
    any request leaves behind, whatever its sender, session and time. *)
Inductive reachable : Index.Store → Prop :=
| reach_boot : reachable Index.boot
| reach_step st env clock sess req st' sess' out :
    reachable st →
    Index.app jwt_sign jwt_verify toLowerCase env clock st sess req
      = (st', sess', out) →
    reachable st'.
End Reach.

(** The status and one field of what a request was answered with. *)
Definition answered (out : Outcome) (code : N) (name : string) (v : json)
  : Prop :=
  ∃ r, out = Reply r ∧ status r = code ∧ field name (body r) = Some v.

(** A field of the [data] object of a response. *)
Definition data_field (r : Response) (name : string) : option json :=
  match field "data" (body r) with
  | Some d => field_of name d
  | None => None
  end.

(** The path [p] is that of the route whose segments are the literals
    [lits]: segment by segment the same but for the case of the letters,
    with or without a slash at the end. *)
Definition routed (p : list str) (lits : list string) : Prop :=
  Forall2 (λ seg name, names seg name = true) (unslash p) lits.

(** What the application sends for the outcome of a route: an exception
    handed to [next] is answered by the error handler. *)
Definition handled (env : Env) (out : Outcome) : Outcome :=
  match out with
  | NextError msg => Reply (Index.errorHandler env msg)
  | _ => out
  end.

(** A review text as the PUT route stores it: not empty, of at most 1000
    code units, with no white space at either end. *)
Definition stored_text (t : str) : Prop :=
  t ≠ [] ∧ (length t ≤ 1000)%nat ∧ trim t = t.

(** Every review of the catalog is such a text. *)
Definition tidy (bs : gmap str Booksdb.Book) : Prop :=
  ∀ isbn b u t,
    bs !! isbn = Some b → Booksdb.reviews b !! u = Some t → stored_text t.


End Spec.

(** A host to run the code on: the case mapping of Basic Latin and
    Latin-1, and a token library whose tokens are a prefix and a name. *)
Module Sample.
Import JS Http.

Definition toLowerCase (s : str) : str := map lower_latin1 s.

(** A token names its user, and every token expires at one time. *)
Definition expiry : Z := 1700003600.

Definition claims_of (u : string) : Payload :=
  mkPayload (lit u) (expiry - 60 * 60) expiry.

Definition alice : Payload := claims_of "alice".

Definition jwt_sign (p : Payload) (secret : str) : str :=
  lit "token-of-" ++ claim_username p.

Definition jwt_verify (token secret : str) (now : Z) : Verdict :=
  if startsWith token (lit "token-of-") then
    if (now / 1000 <? expiry)%Z then
      Decoded (mkPayload (drop 9 token) (expiry - 60 * 60) expiry)
    else VerifyError (lit "TokenExpiredError")
  else VerifyError (lit "JsonWebTokenError").

Definition env : Env := mkEnv None None.

(** A clock reading before, and one after, the tokens expire. *)
Definition clock : Clock :=
  mkClock 1700000100000 (lit "2023-11-14T22:15:00.000Z") 12.5%Q.

Definition late : Clock :=
  mkClock 1700009000000 (lit "2023-11-15T00:43:20.000Z") 8912.5%Q.

(** The session entry a login of [u] leaves. *)
Definition session_of (u : string) : Authorization :=
  mkAuthorization (lit "token-of-" ++ lit u) (lit u) (toISOString clock).

Definition session : Authorization := session_of "alice".

Definition forged : Authorization :=
  mkAuthorization (lit "not-a-token") (lit "alice") (toISOString clock).

Definition no_body : Body := mkBody None None None.

Definition credentials (u p : string) : Body :=
  mkBody (Some (lit u)) (Some (lit p)) None.

Definition review_body (r : string) : Body := mkBody None None (Some (lit r)).

Definition request (m : Method) (p : list string) (b : Body) : Request :=
  mkRequest m (map lit p) b.

(** The seeded book with ISBN 1. *)
Definition things_fall_apart : Booksdb.Book :=
  Booksdb.seed (lit "Chinua Achebe") (lit "Things Fall Apart")
               ["Fiction"; "Historical"]%string 1958 4.5%Q.

(** The seeded catalog after [addReview("1", u, text)]. *)
Definition reviewed (u text : string) : gmap str Booksdb.Book :=
  (Booksdb.addReview Booksdb.books (lit "1") (lit u) (lit text)).1.

(** Requests. *)
Definition get_profile : Request :=
  request GET ["customer"; "auth"; "profile"]%string no_body.

Definition get_health : Request := request GET ["health"]%string no_body.

Definition post_register (u p : string) : Request :=
  request POST ["register"]%string (credentials u p).

Definition post_login (u p : string) : Request :=
  request POST ["customer"; "login"]%string (credentials u p).

Definition put_review (isbn text : string) : Request :=
  request PUT ["customer"; "auth"; "review"; isbn]%string (review_body text).

Definition delete_review (isbn : string) : Request :=
  request DELETE ["customer"; "auth"; "review"; isbn]%string no_body.

(** The application on this host. *)
Definition app (clock : Clock) :=
  Index.app jwt_sign jwt_verify toLowerCase env clock.

(** One client sends requests in a row: the state and the session are
    carried from each request to the next; an uncaught exception ends the
    run. *)
Fixpoint serve (clock : Clock) (st : Index.Store) (sess : Session)
    (reqs : list Request) : Index.Store * Session * list Outcome :=
  match reqs with
  | [] => (st, sess, [])
  | req :: rest =>
      match app clock st sess req with
      | (st1, sess1, Crash) => (st1, sess1, [Crash])
      | (st1, sess1, out) =>
          let '(st2, sess2, outs) := serve clock st1 sess1 rest in
          (st2, sess2, out :: outs)
      end
  end.

(** The status, and the [action] in the data, of an answer. *)
Definition status_of (out : Outcome) : option N :=
  match out with Reply r => Some (status r) | _ => None end.

Definition action_of (out : Outcome) : option json :=
  match out with Reply r => Spec.data_field r "action" | _ => None end.

End Sample.

Import JS Http.

(** A response with another status than the one at hand. *)
Ltac other_status H :=
  unfold reply in H; simplify_eq; simpl in *; discriminate.

(** A branch of [register] that leaves the user store alone and does not
    answer 201. *)
Ltac not_created :=
  left; cbn [negb] in *; simplify_eq; split; [done|];
  let r := fresh "r" in let Hr := fresh "Hr" in let Hs := fresh "Hs" in
  intros (r & Hr & Hs & _);
  unfold AuthUsers.credentials_required, AuthUsers.invalid_username_format,
         reply in Hr;
  simplify_eq; simpl in Hs; discriminate.

(* ===================================================================== *)
(** * Facts about the JavaScript fragment *)
(* ===================================================================== *)

Lemma startsWith_prefix (s p : str) :
  startsWith s p = true ↔ ∃ post, s = p ++ post.
Proof.
  revert s. induction p as [|a p IH]; intros s; simpl.
  - split; [eauto | done].
  - destruct s as [|b s].
    + split; [done | intros [post ?]; done].
    + rewrite andb_true_iff, N.eqb_eq, IH. split.
      * intros [-> [post ->]]. eauto.
      * intros [post Heq]. simplify_eq. eauto.
Qed.

Lemma includes_infix (s p : str) :
  includes s p = true ↔ ∃ pre post, s = pre ++ p ++ post.
Proof.
  induction s as [|c s IH]; simpl.
  - rewrite orb_false_r, startsWith_prefix. split.
    + intros [post ->]. by exists [], post.
    + intros (pre & post & Heq). destruct pre; [by exists post | done].
  - rewrite orb_true_iff, IH.
    destruct (startsWith_prefix (c :: s) p) as [H1 H2]. split.
    + intros [Hs | (pre & post & ->)].
      * destruct (H1 Hs) as [post ->]. by exists [], post.
      * by exists (c :: pre), post.
    + intros (pre & post & Heq). destruct pre as [|c' pre]; simpl in Heq.
      * left. apply H2. eauto.
      * right. simplify_eq. eauto.
Qed.

Section Objects.
Context {V : Type}.
Implicit Types (o : gmap str V) (k : str) (v : V).

Lemma set_insert o k v :
  k ≠ proto_key ∨ is_Some (o !! k) → set o k v = <[k := v]> o.
Proof.
  intros H. unfold set. case_bool_decide as Hk; [|done].
  destruct Hk as [-> Hnone]. destruct H as [|[x Hx]]; [done | congruence].
Qed.

Lemma set_proto o v : o !! proto_key = None → set o proto_key v = o.
Proof. intros H. unfold set. by rewrite bool_decide_eq_true_2. Qed.

Lemma get_own o k v : o !! k = Some v → get o k = Own v.
Proof. intros H. unfold get. by rewrite H. Qed.

Lemma get_absent o k :
  o !! k = None → inherited k = false → get o k = Undefined.
Proof. intros H1 H2. unfold get. by rewrite H1, H2. Qed.

Lemma get_inherited o k :
  o !! k = None → inherited k = true → get o k = Inherited k.
Proof. intros H1 H2. unfold get. by rewrite H1, H2. Qed.

End Objects.

Lemma proto_key_inherited : inherited proto_key = true.
Proof. by vm_compute. Qed.

Lemma not_inherited_not_proto (k : str) : inherited k = false → k ≠ proto_key.
Proof. intros H ->. by rewrite proto_key_inherited in H. Qed.

(* ===================================================================== *)
(** * The catalog store *)
(* ===================================================================== *)

Import Booksdb.

(** The loop of the two searches keeps exactly the entries that pass its
    test. *)
Lemma search_fold_lookup (cond : Book → bool) (bs : gmap str Book) :
  bs !! proto_key = None →
  ∀ isbn b,
    map_fold (λ i book results, if cond book then set results i book else results)
             ∅ bs !! isbn = Some b
    ↔ bs !! isbn = Some b ∧ cond b = true.
Proof.
  apply (map_fold_weak_ind
    (λ r (m : gmap str Book), m !! proto_key = None →
       ∀ isbn b, r !! isbn = Some b ↔ m !! isbn = Some b ∧ cond b = true)).
  - intros _ isbn b. rewrite !lookup_empty. split; [done | by intros [? _]].
  - intros i x m r Hi IH Hproto isbn b.
    assert (i ≠ proto_key) as Hne
      by (intros ->; by rewrite lookup_insert_eq in Hproto).
    rewrite lookup_insert_ne in Hproto by done. specialize (IH Hproto).
    destruct (decide (i = isbn)) as [->|Hd].
    + destruct (cond x) eqn:Hc.
      * rewrite set_insert by auto. rewrite !lookup_insert_eq.
        split; [intros; by simplify_eq | by intros [? _]].
      * rewrite lookup_insert_eq, IH, Hi.
        split; [by intros [? _] | intros [? ?]; simplify_eq; congruence].
    + destruct (cond x).
      * rewrite set_insert by auto. rewrite !lookup_insert_ne by done. apply IH.
      * rewrite lookup_insert_ne by done. apply IH.
Qed.

(** The search reads [toLowerCase] at the query and at the authors only. *)
Lemma searchByAuthor_ext (f g : str → str) (bs : gmap str Book) (q : str) :
  map_Forall (λ _ b, f (author b) = g (author b)) bs →
  f q = g q →
  searchByAuthor f bs q = searchByAuthor g bs q.
Proof.
  intros Hall Hq. unfold searchByAuthor. rewrite !map_fold_foldr.
  rewrite map_Forall_to_list in Hall.
  induction Hall as [|[i b] l Hb _ IH]; simpl; [done|].
  simpl in Hb. by rewrite IH, Hb, Hq.
Qed.

Lemma seed_authors_latin1 : map_Forall (λ _ b, latin1 (author b)) books.
Proof. unfold latin1. apply (bool_decide_unpack _). by vm_compute. Qed.

Lemma seed_achebe :
  searchByAuthor Sample.toLowerCase books (lit "achebe")
  = {[ lit "1" := seed (lit "Chinua Achebe") (lit "Things Fall Apart")
                    ["Fiction"; "Historical"]%string 1958 4.5%Q ]}.
Proof. by vm_compute. Qed.

(** C6: for every search string [s] and every catalog, [searchByAuthor]
    returns exactly the books whose author contains [s] as a
    case-insensitive substring, each under its ISBN, and the empty mapping
    when no author does; on the seed data the search for "achebe" returns
    the single entry with ISBN 1, "Chinua Achebe", "Things Fall Apart".
    [toLowerCase] is any case mapping that is the host's on Basic Latin and
    Latin-1; a catalog has no own key [__proto__], its keys being ISBNs. *)
Theorem searchByAuthor_exact (toLowerCase : str → str) :
  Spec.exact_on_latin1 toLowerCase →
  (∀ (bs : gmap str Book) (s : str),
     bs !! proto_key = None →
     (∀ isbn b,
        searchByAuthor toLowerCase bs s !! isbn = Some b
        ↔ bs !! isbn = Some b ∧ Spec.contains_ci toLowerCase (author b) s)
     ∧ ((∀ isbn b, bs !! isbn = Some b →
                   ¬ Spec.contains_ci toLowerCase (author b) s)
        → searchByAuthor toLowerCase bs s = ∅))
  ∧ searchByAuthor toLowerCase books (lit "achebe")
    = {[ lit "1" := seed (lit "Chinua Achebe") (lit "Things Fall Apart")
                      ["Fiction"; "Historical"]%string 1958 4.5%Q ]}.
Proof.
  intros Hlatin. split.
  - intros bs s Hproto.
    assert (∀ isbn b,
      searchByAuthor toLowerCase bs s !! isbn = Some b
      ↔ bs !! isbn = Some b ∧ Spec.contains_ci toLowerCase (author b) s) as Hiff.
    { intros isbn b. unfold searchByAuthor, Spec.contains_ci.
      rewrite (search_fold_lookup
                 (λ b, includes (toLowerCase (author b)) (toLowerCase s)))
        by done.
      by rewrite includes_infix. }
    split; [done|]. intros Hnone. apply map_empty. intros isbn.
    destruct (searchByAuthor toLowerCase bs s !! isbn) as [b|] eqn:Hb; [|done].
    apply Hiff in Hb as [Hb Hc]. by destruct (Hnone isbn b Hb).
  - rewrite (searchByAuthor_ext toLowerCase Sample.toLowerCase).
    + apply seed_achebe.
    + eapply map_Forall_impl; [apply seed_authors_latin1|].
      intros k b Hb. by apply Hlatin.
    + apply Hlatin. unfold latin1. apply (bool_decide_unpack _). by vm_compute.
Qed.

Lemma searchByAuthor_exact_witness :
  Spec.exact_on_latin1 Sample.toLowerCase
  ∧ searchByAuthor Sample.toLowerCase books (lit "achebe") !! lit "1"
    = Some (seed (lit "Chinua Achebe") (lit "Things Fall Apart")
                 ["Fiction"; "Historical"]%string 1958 4.5%Q)
  ∧ searchByAuthor Sample.toLowerCase books (lit "tolkien") = ∅.
Proof.
  assert (Spec.exact_on_latin1 Sample.toLowerCase) as H by (by intros s _).
  split; [exact H|]. split.
  - rewrite (proj2 (searchByAuthor_exact Sample.toLowerCase H)).
    apply lookup_singleton_eq.
  - by vm_compute.
Defined.

(** ** Deleting a review *)

(** C9: [deleteReview] decides whether a review exists by the truthiness
    of the stored text: when the book is in the catalog and its reviews bind
    the username to the empty string, the call is rejected with the
    review-not-found error and the catalog, the entry included, is left as
    it was. *)
Theorem deleteReview_empty_text
    (bs : gmap str Book) (isbn username : str) (b : Book) :
  bs !! isbn = Some b →
  reviews b !! username = Some [] →
  deleteReview bs isbn username = (bs, Rejected (ReviewNotFound username))
  ∧ message (ReviewNotFound username)
    = lit "No review found for user " ++ username
  ∧ getReviews (deleteReview bs isbn username).1 isbn
    = Resolved (Some (reviews b)).
Proof.
  intros Hb Hr. unfold deleteReview, getReviews.
  rewrite (get_own _ _ _ Hb), (get_own _ _ _ Hr). simpl.
  by rewrite (get_own _ _ _ Hb).
Qed.

Lemma deleteReview_empty_text_witness :
  (∃ b, Sample.reviewed "alice" "" !! lit "1" = Some b
        ∧ reviews b !! lit "alice" = Some [])
  ∧ deleteReview (Sample.reviewed "alice" "") (lit "1") (lit "alice")
    = (Sample.reviewed "alice" "", Rejected (ReviewNotFound (lit "alice"))).
Proof.
  split.
  - eexists. split; vm_compute; reflexivity.
  - eapply (deleteReview_empty_text (Sample.reviewed "alice" "")
              (lit "1") (lit "alice"));
      vm_compute; reflexivity.
Defined.

(** C4: [deleteReview] fails with neither of its two errors for keys
    that name a member of [Object.prototype].  For an ISBN that is no key of the
    catalog but names such a member, both guards are passed with an
    inherited function for a book and the call ends in an uncaught
    exception instead of the book-not-found error.  For a book of the
    catalog and a username that has no review but names such a member, the
    second guard is passed and the call resolves, the catalog unchanged,
    instead of failing with the review-not-found error.  "constructor" is
    such a name, the catalog has no key of that name, and it is a username
    the validator accepts.  Both are reached through the routes: after
    alice registers and logs in, her DELETE /customer/auth/review/constructor
    ends the process; and the registered user "constructor" is answered
    200 when deleting a review of book 1 that was never written. *)
Theorem deleteReview_prototype_keys :
  (∀ (bs : gmap str Book) (isbn username : str),
     bs !! isbn = None → inherited isbn = true →
     deleteReview bs isbn username = (bs, Uncaught))
  ∧ (∀ (bs : gmap str Book) (isbn username : str) (b : Book),
       bs !! isbn = Some b →
       reviews b !! username = None → inherited username = true →
       deleteReview bs isbn username = (bs, Resolved b))
  ∧ (inherited (lit "constructor") = true
     ∧ AuthUsers.isValidUsername (lit "constructor") = true
     ∧ books !! lit "constructor" = None
     ∧ books !! lit "1" = Some Sample.things_fall_apart
     ∧ reviews Sample.things_fall_apart !! lit "constructor" = None)
  ∧ (deleteReview books (lit "constructor") (lit "alice") = (books, Uncaught)
     ∧ deleteReview books (lit "1") (lit "constructor")
       = (books, Resolved Sample.things_fall_apart))
  ∧ (∃ st sess registered logged_in,
       Sample.serve Sample.clock Index.boot None
         [ Sample.post_register "alice" "secret1";
           Sample.post_login "alice" "secret1";
           Sample.delete_review "constructor" ]
       = (st, sess, [registered; logged_in; Crash])
       ∧ Sample.status_of registered = Some 201
       ∧ Sample.status_of logged_in = Some 200)
  ∧ (∃ st sess outs,
       Sample.serve Sample.clock Index.boot None
         [ Sample.post_register "constructor" "secret1";
           Sample.post_login "constructor" "secret1";
           Sample.delete_review "1" ]
       = (st, sess, outs)
       ∧ map Sample.status_of outs = [Some 201; Some 200; Some 200]
       ∧ Index.st_books st = books).
Proof.
  assert (∀ (bs : gmap str Book) isbn username,
            bs !! isbn = None → inherited isbn = true →
            deleteReview bs isbn username = (bs, Uncaught)) as Hisbn.
  { intros bs isbn username Hb Hi. unfold deleteReview.
    by rewrite (get_inherited _ _ Hb Hi). }
  assert (∀ (bs : gmap str Book) isbn username b,
            bs !! isbn = Some b →
            reviews b !! username = None → inherited username = true →
            deleteReview bs isbn username = (bs, Resolved b)) as Huser.
  { intros bs isbn username b Hb Hr Hi. unfold deleteReview.
    rewrite (get_own _ _ _ Hb), (get_inherited _ _ Hr Hi).
    cbn [truthy_str negb]. unfold del. rewrite delete_id by done.
    assert (with_reviews b (reviews b) = b) as -> by (by destruct b).
    by rewrite insert_id. }
  split; [exact Hisbn|]. split; [exact Huser|].
  split; [repeat split; vm_compute; reflexivity|].
  split.
  { split; [apply Hisbn | apply Huser]; vm_compute; reflexivity. }
  split.
  - eexists _, _, _, _. split; [vm_compute; reflexivity|].
    split; reflexivity.
  - eexists _, _, _. split; [vm_compute; reflexivity|].
    split; vm_compute; reflexivity.
Qed.

(** For keys that name no member of [Object.prototype], [deleteReview]
    does what its guards say: for an ISBN that is no key of the catalog it
    is rejected with the book-not-found error; for an ISBN in the catalog,
    it is rejected with the review-not-found error, the catalog unchanged,
    when the reviews hold no entry for the username or hold the empty text
    for it; when they hold a non-empty text it removes exactly that entry,
    leaves every other review and every other field of the book as they
    were, and resolves with the updated book. *)
Theorem deleteReview_cases (bs : gmap str Book) (isbn username : str) :
  (bs !! isbn = None → inherited isbn = false →
     deleteReview bs isbn username = (bs, Rejected (BookNotFound isbn)))
  ∧ (∀ b, bs !! isbn = Some b →
       (reviews b !! username = None ∧ inherited username = false)
       ∨ reviews b !! username = Some [] →
       deleteReview bs isbn username = (bs, Rejected (ReviewNotFound username)))
  ∧ (∀ b text, bs !! isbn = Some b →
       reviews b !! username = Some text → text ≠ [] →
       ∃ b', deleteReview bs isbn username = (<[isbn := b']> bs, Resolved b')
             ∧ reviews b' = delete username (reviews b)
             ∧ reviews b' !! username = None
             ∧ (∀ u, u ≠ username → reviews b' !! u = reviews b !! u)
             ∧ author b' = author b ∧ title b' = title b ∧ genre b' = genre b
             ∧ year b' = year b ∧ rating b' = rating b).
Proof.
  split; [|split].
  - intros Hb Hi. unfold deleteReview. by rewrite (get_absent _ _ Hb Hi).
  - intros b Hb Hr. unfold deleteReview. rewrite (get_own _ _ _ Hb).
    destruct Hr as [[Hr Hi]|Hr].
    + by rewrite (get_absent _ _ Hr Hi).
    + by rewrite (get_own _ _ _ Hr).
  - intros b text Hb Hr Hne. unfold deleteReview.
    rewrite (get_own _ _ _ Hb), (get_own _ _ _ Hr). simpl.
    destruct text as [|c text]; [done|]. simpl.
    eexists. split; [done|]. simpl. unfold del.
    split; [done|]. split; [apply lookup_delete_eq|].
    split; [|done]. intros u Hu. by apply lookup_delete_ne.
Qed.

Lemma deleteReview_cases_witness :
  deleteReview books (lit "999") (lit "alice")
  = (books, Rejected (BookNotFound (lit "999")))
  ∧ deleteReview books (lit "1") (lit "alice")
    = (books, Rejected (ReviewNotFound (lit "alice")))
  ∧ (deleteReview (Sample.reviewed "alice" "Good") (lit "1") (lit "alice")).1
    = books.
Proof.
  split; [|split].
  - apply (proj1 (deleteReview_cases books (lit "999") (lit "alice")));
      vm_compute; reflexivity.
  - apply (proj1 (proj2 (deleteReview_cases books (lit "1") (lit "alice")))
             Sample.things_fall_apart); [vm_compute; reflexivity|].
    left. split; vm_compute; reflexivity.
  - vm_compute; reflexivity.
Defined.

(** ** Writing a review *)

Lemma set_set {V} (o : gmap str V) (k : str) (v w : V) :
  set (set o k v) k w = set o k w.
Proof.
  unfold set at 2 3. case_bool_decide as Hk.
  - destruct Hk as [-> Hk]. by rewrite !set_proto.
  - rewrite set_insert by (right; rewrite lookup_insert_eq; eauto).
    apply insert_insert_eq.
Qed.

(** For every username but [__proto__], [addReview] on a book of the
    catalog binds the username to the text, and [getReviews] shows it. *)
Lemma addReview_stores
    (bs : gmap str Book) (isbn username text : str) (b : Book) :
  bs !! isbn = Some b →
  username ≠ proto_key ∨ is_Some (reviews b !! username) →
  let b' := with_reviews b (<[username := text]> (reviews b)) in
  addReview bs isbn username text = (<[isbn := b']> bs, Resolved b')
  ∧ getReviews (<[isbn := b']> bs) isbn
    = Resolved (Some (<[username := text]> (reviews b))).
Proof.
  intros Hb Hu b'. unfold addReview, getReviews.
  rewrite (get_own _ _ _ Hb). rewrite set_insert by done.
  split; [done|]. by rewrite (get_own _ _ b') by apply lookup_insert_eq.
Qed.

(** A second [addReview] for the same book and user overwrites the first;
    with the same text it changes nothing. *)
Lemma addReview_twice (bs : gmap str Book) (isbn username t1 t2 : str) :
  addReview (addReview bs isbn username t1).1 isbn username t2
  = addReview bs isbn username t2.
Proof.
  unfold addReview. destruct (bs !! isbn) as [b|] eqn:Hb.
  - rewrite (get_own _ _ _ Hb). simpl.
    rewrite (get_own _ _ (with_reviews b (set (reviews b) username t1)))
      by apply lookup_insert_eq.
    unfold with_reviews. simpl. by rewrite set_set, insert_insert_eq.
  - destruct (inherited isbn) eqn:Hi.
    + rewrite (get_inherited _ _ Hb Hi). simpl.
      by rewrite (get_inherited _ _ Hb Hi).
    + rewrite (get_absent _ _ Hb Hi). simpl.
      by rewrite (get_absent _ _ Hb Hi).
Qed.

(** C5, at the input where the code departs from it: "__proto__" has the
    shape of a username, book 1 is in the catalog, and after
    [addReview("1", "__proto__", "Great book")] resolves the catalog is
    what it was: [getReviews("1")] holds no entry for that user.  The same
    through the routes: the user "__proto__" registers, logs in and PUTs a
    review of book 1; all three requests succeed, and the book has no
    review. *)
Theorem addReview_proto_key_lost :
  AuthUsers.isValidUsername proto_key = true
  ∧ books !! lit "1" = Some Sample.things_fall_apart
  ∧ addReview books (lit "1") proto_key (lit "Great book")
    = (books, Resolved Sample.things_fall_apart)
  ∧ getReviews (addReview books (lit "1") proto_key (lit "Great book")).1
               (lit "1")
    = Resolved (Some ∅)
  ∧ (∅ : gmap str str) !! proto_key = None
  ∧ ∃ st sess outs,
      Sample.serve Sample.clock Index.boot None
        [ Sample.post_register "__proto__" "secret1";
          Sample.post_login "__proto__" "secret1";
          Sample.put_review "1" "Great book" ]
      = (st, sess, outs)
      ∧ map Sample.status_of outs = [Some 201; Some 200; Some 200]
      ∧ getReviews (Index.st_books st) (lit "1") = Resolved (Some ∅).
Proof.
  repeat (split; [vm_compute; reflexivity|]).
  eexists _, _, _. split; [vm_compute; reflexivity|].
  split; vm_compute; reflexivity.
Qed.

(** ** The catalog keeps its books *)

Lemma seeded_books : Spec.seeded books.
Proof.
  intros isbn. destruct (books !! isbn) as [b|] eqn:Hb; constructor.
  assert (map_Forall (λ _ b, reviews b = ∅) books) as Hempty.
  { apply (bool_decide_unpack _). by vm_compute. }
  split; [by destruct b|]. rewrite (Hempty _ _ Hb). apply map_Forall_empty.
Qed.

Lemma seeded_no_proto (bs : gmap str Book) :
  Spec.seeded bs → bs !! proto_key = None.
Proof.
  intros Hbs. specialize (Hbs proto_key).
  assert (books !! proto_key = None) as Hn by (by vm_compute).
  rewrite Hn in Hbs. by inversion Hbs.
Qed.

Lemma set_nonempty (rs : gmap str str) (u text : str) :
  map_Forall (λ _ t, t ≠ []) rs → text ≠ [] →
  map_Forall (λ _ t, t ≠ []) (set rs u text).
Proof.
  intros Hrs Ht. unfold set. case_bool_decide; [done|].
  by apply map_Forall_insert_2.
Qed.

Lemma addReview_seeded (bs : gmap str Book) (isbn u text : str) :
  Spec.seeded bs → text ≠ [] → Spec.seeded (addReview bs isbn u text).1.
Proof.
  intros Hbs Ht. unfold addReview.
  destruct (get bs isbn) as [book| |] eqn:Hg; [|done..].
  unfold get in Hg.
  destruct (bs !! isbn) as [b|] eqn:Hb; [|by destruct (inherited isbn)].
  simplify_eq. simpl. intros i. destruct (decide (isbn = i)) as [<-|Hne].
  - rewrite lookup_insert_eq. specialize (Hbs isbn). rewrite Hb in Hbs.
    inversion Hbs as [? b0 [Hcopy Hall] Heq1 Heq2|]; subst. constructor.
    split; [|by apply set_nonempty]. simpl. by rewrite Hcopy.
  - rewrite lookup_insert_ne by done. apply Hbs.
Qed.

Lemma deleteReview_seeded (bs : gmap str Book) (isbn u : str) :
  Spec.seeded bs → Spec.seeded (deleteReview bs isbn u).1.
Proof.
  intros Hbs. unfold deleteReview.
  destruct (get bs isbn) as [book| |] eqn:Hg; [|done..].
  destruct (negb _); [done|].
  unfold get in Hg.
  destruct (bs !! isbn) as [b|] eqn:Hb; [|by destruct (inherited isbn)].
  simplify_eq. simpl. intros i. destruct (decide (isbn = i)) as [<-|Hne].
  - rewrite lookup_insert_eq. specialize (Hbs isbn). rewrite Hb in Hbs.
    inversion Hbs as [? b0 [Hcopy Hall] Heq1 Heq2|]; subst. constructor.
    split; [simpl; by rewrite Hcopy|]. simpl. unfold del.
    by apply map_Forall_delete.
  - rewrite lookup_insert_ne by done. apply Hbs.
Qed.

(** In such a catalog, for a username that names no member of
    [Object.prototype], [deleteReview] reports a review as not found
    exactly when the book has no entry for the user. *)
Lemma deleteReview_seeded_not_found
    (bs : gmap str Book) (isbn username : str) (b : Book) :
  Spec.seeded bs → bs !! isbn = Some b → inherited username = false →
  (deleteReview bs isbn username).2 = Rejected (ReviewNotFound username)
  ↔ reviews b !! username = None.
Proof.
  intros Hbs Hb Hu. unfold deleteReview. rewrite (get_own _ _ _ Hb).
  specialize (Hbs isbn). rewrite Hb in Hbs.
  inversion Hbs as [? b0 [_ Hall] Heq1 Heq2|]; subst.
  destruct (reviews b !! username) as [text|] eqn:Hr.
  - rewrite (get_own _ _ _ Hr). simpl.
    destruct text as [|c text]; [by destruct (Hall _ _ Hr)|]. by simpl.
  - by rewrite (get_absent _ _ Hr Hu).
Qed.

(** ** The review routes *)

Lemma trim_nonempty (s : str) :
  (length (trim s) =? 0)%nat = false → trim s ≠ [].
Proof. intros H Heq. rewrite Heq in H. simpl in H. discriminate. Qed.

Lemma put_review_seeded clock bs sess isbn b bs' out :
  AuthUsers.put_review clock bs sess isbn b = (bs', out) →
  Spec.seeded bs → Spec.seeded bs'.
Proof.
  unfold AuthUsers.put_review. intros H Hbs.
  destruct sess as [a|]; [|by simplify_eq].
  destruct (body_review b) as [review|]; [|by simplify_eq].
  destruct (negb (truthy review)); cbn [orb] in H; [by simplify_eq|].
  destruct (length (trim review) =? 0)%nat eqn:Ht; [by simplify_eq|].
  destruct (1000 <? length review)%nat; [by simplify_eq|].
  pose proof (addReview_seeded bs isbn (auth_username a) (trim review) Hbs
                (trim_nonempty _ Ht)) as Hs.
  destruct (addReview bs isbn (auth_username a) (trim review))
    as [bs1 [book|e|]]; by simplify_eq.
Qed.

Lemma delete_review_seeded clock bs sess isbn bs' out :
  AuthUsers.delete_review clock bs sess isbn = (bs', out) →
  Spec.seeded bs → Spec.seeded bs'.
Proof.
  unfold AuthUsers.delete_review. intros H Hbs.
  destruct sess as [a|]; [|by simplify_eq].
  pose proof (deleteReview_seeded bs isbn (auth_username a) Hbs) as Hs.
  destruct (deleteReview bs isbn (auth_username a)) as [bs1 [book|e|]];
    by simplify_eq.
Qed.


(** Whenever PUT /customer/auth/review/:isbn answers 200 to a user other
    than "__proto__", the action it reports is "added": the comparison is
    made after the write. *)
Lemma put_review_action (clock : Clock) (bs bs' : gmap str Book)
    (a : Authorization) (isbn : str) (b : Body) (r : Response) :
  AuthUsers.put_review clock bs (Some a) isbn b = (bs', Reply r) →
  status r = 200 →
  auth_username a ≠ proto_key →
  Spec.data_field r "action" = Some (JStr (lit "added")).
Proof.
  unfold AuthUsers.put_review. intros H Hs Hu.
  destruct (body_review b) as [review|]; [|other_status H].
  destruct (negb (truthy review) || (length (trim review) =? 0)%nat);
    [other_status H|].
  destruct (1000 <? length review)%nat; [other_status H|].
  unfold addReview in H.
  destruct (get bs isbn) as [book| |]; [|done|other_status H].
  rewrite set_insert in H by auto. simpl in H.
  rewrite (get_own _ _ (trim review)) in H by apply lookup_insert_eq.
  simpl in H. rewrite bool_decide_eq_true_2 in H by done.
  unfold reply in H. by simplify_eq.
Qed.

(** C7, at the input where the code departs from it: alice has reviewed
    book 1 ("Good"); her PUT with "Great book" overwrites that review and
    is answered 200, yet the action it reports is "added".  The same
    through the routes: alice registers, logs in and PUTs two reviews of
    book 1 in a row; both PUTs report "added" and the book holds the second
    text only. *)
Theorem put_review_reports_added_on_overwrite :
  getReviews (Sample.reviewed "alice" "Good") (lit "1")
  = Resolved (Some {[ lit "alice" := lit "Good" ]})
  ∧ (∃ bs' r,
      AuthUsers.put_review Sample.clock (Sample.reviewed "alice" "Good")
        (Some Sample.session) (lit "1") (Sample.review_body "Great book")
      = (bs', Reply r)
      ∧ getReviews bs' (lit "1")
        = Resolved (Some {[ lit "alice" := lit "Great book" ]})
      ∧ status r = 200
      ∧ Spec.data_field r "action" = Some (JStr (lit "added")))
  ∧ ∃ st sess outs,
      Sample.serve Sample.clock Index.boot None
        [ Sample.post_register "alice" "secret1";
          Sample.post_login "alice" "secret1";
          Sample.put_review "1" "Good";
          Sample.put_review "1" "Great book" ]
      = (st, sess, outs)
      ∧ map Sample.status_of outs = [Some 201; Some 200; Some 200; Some 200]
      ∧ map Sample.action_of outs
        = [None; None; Some (JStr (lit "added")); Some (JStr (lit "added"))]
      ∧ getReviews (Index.st_books st) (lit "1")
        = Resolved (Some {[ lit "alice" := lit "Great book" ]}).
Proof.
  split; [vm_compute; reflexivity|]. split.
  - eexists _, _. split; [vm_compute; reflexivity|].
    repeat split; vm_compute; reflexivity.
  - eexists _, _, _. split; [vm_compute; reflexivity|].
    repeat split; vm_compute; reflexivity.
Qed.

(* ===================================================================== *)
(** * The credential store *)
(* ===================================================================== *)

Import AuthUsers (User, mkUser, username, password, registeredAt,
                  isValidUsername, validatePassword, authenticateUser).

Lemma existsb_registered (us : list User) (u : str) :
  existsb (λ user, bool_decide (username user = u)) us = true
  ↔ Spec.registered us u.
Proof.
  unfold Spec.registered. rewrite existsb_exists. split.
  - intros (x & Hx & Hu). exists x. rewrite list_elem_of_In.
    by apply bool_decide_eq_true in Hu.
  - intros (x & Hx & Hu). exists x. rewrite <-list_elem_of_In.
    by rewrite bool_decide_eq_true.
Qed.

Lemma find_unregistered (us : list User) (u : str) :
  ¬ Spec.registered us u →
  find (λ x, bool_decide (username x = u)) us = None.
Proof.
  intros Hn. induction us as [|x us IH]; simpl; [done|].
  case_bool_decide as Hx.
  - destruct Hn. exists x. split; [left|done].
  - apply IH. intros (y & Hy & Hu). apply Hn. exists y. split; [by right|done].
Qed.

Lemma valid_username_truthy (u : str) :
  isValidUsername u = true → truthy u = true.
Proof.
  unfold isValidUsername. destruct u; [|done].
  rewrite !andb_true_iff. by intros [[_ ?] _].
Qed.

Lemma valid_password_truthy (p : str) :
  AuthUsers.success (validatePassword p) = true → truthy p = true.
Proof. unfold validatePassword. by destruct p. Qed.

(** [validatePassword] accepts exactly the lengths 6 to 100. *)
Lemma validatePassword_length (p : str) :
  AuthUsers.success (validatePassword p) = true ↔ Spec.password_rule p.
Proof.
  unfold validatePassword, Spec.password_rule.
  destruct (length p <? 6)%nat eqn:H6; [|destruct (100 <? length p)%nat eqn:H100];
    simpl; rewrite ?Nat.ltb_lt, ?Nat.ltb_ge in *; split; (done || lia).
Qed.

Lemma is_word_char (c : N) : AuthUsers.is_word c = true ↔ Spec.word_char c.
Proof.
  unfold AuthUsers.is_word, Spec.word_char.
  rewrite !orb_true_iff, !andb_true_iff, !N.leb_le, N.eqb_eq. tauto.
Qed.

(** [isValidUsername] accepts exactly the username shape. *)
Lemma isValidUsername_shape (u : str) :
  isValidUsername u = true ↔ Spec.username_shape u.
Proof.
  unfold isValidUsername, Spec.username_shape.
  rewrite !andb_true_iff, forallb_forall, Forall_forall, !Nat.leb_le.
  setoid_rewrite list_elem_of_In. setoid_rewrite is_word_char. tauto.
Qed.

(** What [register] can do to the user store: nothing, without answering
    201; or append the user it was asked for, whose name was free. *)
Lemma register_users
    (clock : Clock) (us us' : list User) (b : Body) (out : Outcome) :
  General.register clock us b = (us', out) →
  (us' = us ∧ ¬ Spec.answered out 201 "success" (JBool true))
  ∨ ∃ u p, body_username b = Some u ∧ body_password b = Some p
           ∧ isValidUsername u = true
           ∧ AuthUsers.success (validatePassword p) = true
           ∧ ¬ Spec.registered us u
           ∧ us' = us ++ [mkUser u p (toISOString clock)]
           ∧ Spec.answered out 201 "success" (JBool true).
Proof.
  unfold General.register, Spec.answered. intros H.
  destruct (body_username b) as [u|], (body_password b) as [p|];
    try not_created.
  destruct (negb (truthy u) || negb (truthy p)); [not_created|].
  destruct (isValidUsername u) eqn:Hu; [|not_created].
  destruct (AuthUsers.success (validatePassword p)) eqn:Hp; [|not_created].
  cbn [negb] in H.
  destruct (existsb _ us) eqn:He; [not_created|].
  right. exists u, p. simplify_eq. repeat split; try done.
  - rewrite <-existsb_registered. by rewrite He.
  - eexists. split; [reflexivity|]. by split.
Qed.

Lemma register_replies
    (clock : Clock) (us us' : list User) (b : Body) (out : Outcome) :
  General.register clock us b = (us', out) → ∃ r, out = Reply r.
Proof.
  unfold General.register, AuthUsers.credentials_required,
    AuthUsers.invalid_username_format, reply.
  intros H. repeat case_match; simplify_eq; eauto.
Qed.

(** A registration that passes the validators under a free name appends
    the user and answers 201. *)
Lemma register_fresh
    (clock : Clock) (us : list User) (u p : str) (review : option str) :
  isValidUsername u = true →
  AuthUsers.success (validatePassword p) = true →
  ¬ Spec.registered us u →
  ∃ out,
    General.register clock us (mkBody (Some u) (Some p) review)
    = (us ++ [mkUser u p (toISOString clock)], out)
    ∧ Spec.answered out 201 "success" (JBool true).
Proof.
  intros Hu Hp Hn. unfold General.register. cbn [body_username body_password].
  rewrite (valid_username_truthy _ Hu), (valid_password_truthy _ Hp), Hu, Hp.
  cbn [negb orb].
  destruct (existsb _ us) eqn:He.
  { apply existsb_registered in He. done. }
  eexists. split; [reflexivity|].
  eexists. split; [reflexivity|]. by split.
Qed.

(** [authenticateUser] finds a user that was appended to the store. *)
Lemma authenticateUser_snoc (us : list User) (u p t : str) :
  authenticateUser (us ++ [mkUser u p t]) u p = true.
Proof.
  unfold authenticateUser. rewrite existsb_app. simpl.
  rewrite !bool_decide_eq_true_2 by done. by rewrite orb_true_r.
Qed.

(** C2: for every username of the username shape and every password that
    passes the length rule, when no stored user has that username,
    POST /register answers 201 and appends the user, and [authenticateUser]
    on the store it leaves returns true for the same username and
    password. *)
Theorem register_then_authenticate
    (clock : Clock) (us : list User) (u p : str) (review : option str) :
  Spec.username_shape u →
  Spec.password_rule p →
  ¬ Spec.registered us u →
  ∃ us' out,
    General.register clock us (mkBody (Some u) (Some p) review) = (us', out)
    ∧ Spec.answered out 201 "success" (JBool true)
    ∧ us' = us ++ [mkUser u p (toISOString clock)]
    ∧ authenticateUser us' u p = true.
Proof.
  intros Hu Hp Hn.
  apply isValidUsername_shape in Hu. apply validatePassword_length in Hp.
  destruct (register_fresh clock us u p review Hu Hp Hn) as (out & Hr & Ha).
  eexists _, out. split; [exact Hr|]. split; [exact Ha|].
  split; [done|]. apply authenticateUser_snoc.
Qed.

Lemma register_then_authenticate_witness :
  Spec.username_shape (lit "alice")
  ∧ Spec.password_rule (lit "secret1")
  ∧ ¬ Spec.registered AuthUsers.users (lit "alice")
  ∧ ∃ us' out,
      General.register Sample.clock AuthUsers.users
        (Sample.credentials "alice" "secret1") = (us', out)
      ∧ Spec.answered out 201 "success" (JBool true)
      ∧ us' = AuthUsers.users
              ++ [mkUser (lit "alice") (lit "secret1")
                         (toISOString Sample.clock)]
      ∧ authenticateUser us' (lit "alice") (lit "secret1") = true.
Proof.
  assert (Spec.username_shape (lit "alice")) as Hu
    by (by apply isValidUsername_shape).
  assert (Spec.password_rule (lit "secret1")) as Hp
    by (by apply validatePassword_length).
  assert (¬ Spec.registered AuthUsers.users (lit "alice")) as Hfree.
  { intros (x & Hx & _). by apply elem_of_nil in Hx. }
  split; [exact Hu|]. split; [exact Hp|]. split; [exact Hfree|].
  exact (register_then_authenticate Sample.clock AuthUsers.users
           (lit "alice") (lit "secret1") None Hu Hp Hfree).
Defined.



Lemma unique_usernames_snoc (us : list User) (x : User) :
  Spec.unique_usernames us → ¬ Spec.registered us (username x) →
  Spec.unique_usernames (us ++ [x]).
Proof.
  unfold Spec.unique_usernames, Spec.registered. intros Hnd Hn.
  rewrite map_app. apply NoDup_app. split; [done|]. split.
  - intros u Hu Hx. apply list_elem_of_singleton in Hx as ->.
    apply list_elem_of_fmap in Hu as (y & Hy & Hin). apply Hn. eauto.
  - apply NoDup_singleton.
Qed.

(* ===================================================================== *)
(** * The application *)
(* ===================================================================== *)

Section Application.
Variable jwt_sign : Payload → str → str.
Variable jwt_verify : str → str → Z → Verdict.
Variable toLowerCase : str → str.
Variable env : Env.
Variable clock : Clock.

Abbreviation gate := (Index.gate jwt_verify env clock).
Abbreviation routes := (Index.routes jwt_sign toLowerCase env clock).
Abbreviation app := (Index.app jwt_sign jwt_verify toLowerCase env clock).
Abbreviation verify a :=
  (jwt_verify (accessToken a) (AuthUsers.secret env) (Date_now clock)).

(** ** The gate *)

(** C1: for every request whose path lies under /customer/auth/: when the
    session holds no authorization entry the gate ends the request with 401
    and the error "No active session"; when it holds one whose token
    [jwt.verify] refuses, the gate ends the request with 403, the error
    being "Token expired" for a [TokenExpiredError] and "Invalid token" for
    any other; in both cases the state and the session are left as they
    were and no route runs.  The request goes on to the routes exactly when
    the session holds an entry whose token verifies. *)
Theorem gate_guards_customer_auth
    (st : Index.Store) (sess : Session) (req : Request) :
  Index.under_auth (path req) = true →
  (sess = None →
     ∃ r, gate st sess req = Index.Done st sess (Reply r)
          ∧ app st sess req = (st, sess, Reply r)
          ∧ status r = 401
          ∧ field "error" (body r) = Some (JStr (lit "No active session")))
  ∧ (∀ a name, sess = Some a → verify a = VerifyError name →
     ∃ r, gate st sess req = Index.Done st sess (Reply r)
          ∧ app st sess req = (st, sess, Reply r)
          ∧ status r = 403
          ∧ (name = lit "TokenExpiredError" →
             field "error" (body r) = Some (JStr (lit "Token expired")))
          ∧ (name ≠ lit "TokenExpiredError" →
             field "error" (body r) = Some (JStr (lit "Invalid token"))))
  ∧ (∀ a claims, sess = Some a → verify a = Decoded claims →
     gate st sess req = Index.Next (Some claims)
     ∧ app st sess req = routes st sess req)
  ∧ ((∃ user, gate st sess req = Index.Next user)
     ↔ ∃ a claims, sess = Some a ∧ verify a = Decoded claims).
Proof.
  intros Hp. unfold Index.app, Index.gate, Index.authMiddleware. rewrite Hp.
  split; [|split; [|split]].
  - intros ->. eexists. repeat split.
  - intros a name -> Hv. rewrite Hv. eexists. repeat split.
    + intros ->. reflexivity.
    + intros Hn. cbn [body field String.eqb Ascii.eqb Bool.eqb].
      by rewrite bool_decide_eq_false_2.
  - intros a claims -> Hv. by rewrite Hv.
  - split.
    + intros [user Hg]. destruct sess as [a|]; [|done].
      destruct (verify a) as [claims|name] eqn:Hv; [|done]. eauto.
    + intros (a & claims & -> & Hv). rewrite Hv. eauto.
Qed.

Lemma handled_as_POST (m : Method) : handled_as m = POST → m = POST.
Proof. by destruct m. Qed.

(** A path and the path without the slash at its end. *)
Lemma unslash_cons (seg s : str) (rest : list str) :
  unslash (seg :: s :: rest) = seg :: unslash (s :: rest).
Proof. by destruct seg. Qed.

Lemma unslash_inv (p q : list str) :
  unslash p = q → p = q ∨ p = q ++ [[]].
Proof.
  revert q. induction p as [|seg rest IH]; intros q H; [by left|].
  destruct rest as [|s rest].
  - destruct seg; simpl in H; subst q; [by right | by left].
  - rewrite unslash_cons in H. subst q.
    destruct (IH _ eq_refl) as [Hr|Hr]; [left|right].
    + by f_equal.
    + rewrite <- app_comm_cons. by f_equal.
Qed.


(** ** The profile *)

(** C10: once the gate is passed, GET /customer/auth/profile answers 200
    with the username of the session entry and, as [lastLogin], its
    [loggedInAt]; when no stored user has that username, [registeredAt] is
    the string "Unknown". *)
Theorem profile_never_fails
    (st : Index.Store) (a : Authorization) (claims : Payload) (b : Body) :
  verify a = Decoded claims →
  ∃ r, app st (Some a)
           (mkRequest GET [lit "customer"; lit "auth"; lit "profile"] b)
       = (st, Some a, Reply r)
       ∧ status r = 200
       ∧ Spec.data_field r "username" = Some (JStr (auth_username a))
       ∧ Spec.data_field r "lastLogin" = Some (JStr (loggedInAt a))
       ∧ (¬ Spec.registered (Index.st_users st) (auth_username a) →
          Spec.data_field r "registeredAt" = Some (JStr (lit "Unknown"))).
Proof.
  intros Hv. unfold Index.app, Index.gate, Index.authMiddleware.
  cbn [path].
  change (Index.under_auth [lit "customer"; lit "auth"; lit "profile"])
    with true.
  rewrite Hv.
  unfold Index.routes, Index.layers, Index.dispatch, Index.customerRoutes.
  cbn [path method handled_as].
  change (names (lit "customer") "customer") with true.
  change (unslash (mounted [lit "auth"; lit "profile"]))
    with [lit "auth"; lit "profile"].
  change (names (lit "auth") "auth") with true.
  change (names (lit "profile") "profile") with true.
  cbn [andb]. unfold AuthUsers.profile, reply.
  eexists. split; [reflexivity|]. repeat split.
  intros Hn. unfold Spec.data_field. cbn.
  by rewrite (find_unregistered _ _ Hn).
Qed.

(** ** The health check *)

(** C8, on the code: GET /health needs no session and is always answered
    200 with a timestamp, by the public router; the body has no [uptime].
    The handler of index.js that sends one is mounted behind the
    catch-all. *)
Theorem health_without_uptime
    (st : Index.Store) (sess : Session) (b : Body) :
  ∃ r, app st sess (mkRequest GET [lit "health"] b) = (st, sess, Reply r)
       ∧ status r = 200
       ∧ field "timestamp" (body r) = Some (JStr (toISOString clock))
       ∧ field "uptime" (body r) = None
       ∧ Index.app_health clock (mkRequest GET [lit "health"] b)
         = Some (mkResponse 200
             [ ("success", JBool true);
               ("message", JStr (lit "Service is healthy"));
               ("timestamp", JStr (toISOString clock));
               ("uptime", JReal (uptime clock)) ]%string).
Proof.
  unfold Index.app, Index.gate. cbn [path Index.under_auth].
  unfold Index.routes, Index.layers, Index.dispatch, Index.customerRoutes.
  cbn [path method handled_as].
  change (names (lit "health") "customer") with false. cbn iota.
  unfold Index.generalRoutes. cbn [path method handled_as].
  change (unslash [lit "health"]) with [lit "health"].
  change (names (lit "health") "health") with true. cbn iota.
  eexists. split; [reflexivity|]. repeat split.
Qed.

(** No request reaches the fourth layer, the /health of index.js. *)
Lemma health_route_is_dead st sess req :
  Index.dispatch (Index.layers jwt_sign toLowerCase env clock) st sess req
  = Index.dispatch (take 3 (Index.layers jwt_sign toLowerCase env clock))
                   st sess req.
Proof.
  unfold Index.layers. cbn [take Index.dispatch].
  destruct (Index.customerRoutes _ _ _ _ _ _); [done|].
  by destruct (Index.generalRoutes _ _ _ _ _).
Qed.

(** ** What a request does to the user store *)

Lemma customerRoutes_users st sess req st' sess' out :
  Index.customerRoutes jwt_sign env clock st sess req = Some (st', sess', out) →
  Index.st_users st' = Index.st_users st.
Proof.
  unfold Index.customerRoutes. intros H.
  repeat case_match; by simplify_eq.
Qed.

Lemma generalRoutes_users st sess req st' sess' out :
  Index.generalRoutes toLowerCase clock st sess req = Some (st', sess', out) →
  Index.st_users st' = Index.st_users st
  ∨ (method req = POST ∧ Spec.routed (path req) ["register"]%string
     ∧ General.register clock (Index.st_users st) (req_body req)
       = (Index.st_users st', out)).
Proof.
  unfold Index.generalRoutes, Spec.routed. intros H.
  destruct (unslash (path req)) as [|r [|? ?]] eqn:Hp;
    repeat case_match; simplify_eq; auto.
  right. split; [by apply handled_as_POST|]. split; [|done].
  by repeat constructor.
Qed.

Lemma routes_users st sess req st' sess' out :
  routes st sess req = (st', sess', out) →
  Index.st_users st' = Index.st_users st
  ∨ (method req = POST ∧ Spec.routed (path req) ["register"]%string
     ∧ General.register clock (Index.st_users st) (req_body req)
       = (Index.st_users st', out)).
Proof.
  unfold Index.routes, Index.layers, Index.dispatch. intros H.
  destruct (Index.customerRoutes _ _ _ _ _ _) as [[[st1 sess1] out1]|] eqn:Hc.
  { left. apply customerRoutes_users in Hc. destruct out1; by simplify_eq. }
  destruct (Index.generalRoutes _ _ _ _ _) as [[[st1 sess1] out1]|] eqn:Hg.
  - apply generalRoutes_users in Hg as [Hg|(Hm & Hp & Hr)].
    + left. destruct out1; by simplify_eq.
    + destruct (register_replies _ _ _ _ _ Hr) as [r ->]. simplify_eq. by right.
  - left. by simplify_eq.
Qed.

(** A request leaves the user store as it was, unless it is a
    POST /register, whose effect is that of [register]. *)
Lemma app_users st sess req st' sess' out :
  app st sess req = (st', sess', out) →
  Index.st_users st' = Index.st_users st
  ∨ (method req = POST ∧ Spec.routed (path req) ["register"]%string
     ∧ General.register clock (Index.st_users st) (req_body req)
       = (Index.st_users st', out)).
Proof.
  unfold Index.app. intros H.
  destruct (Index.gate _ _ _ _ _ _) as [user|st1 sess1 out1] eqn:Hg.
  - by apply routes_users in H.
  - left. unfold Index.gate in Hg. repeat case_match; by simplify_eq.
Qed.

(** ** What a request does to the catalog *)

Lemma customerRoutes_seeded st sess req st' sess' out :
  Index.customerRoutes jwt_sign env clock st sess req = Some (st', sess', out) →
  Spec.seeded (Index.st_books st) → Spec.seeded (Index.st_books st').
Proof.
  unfold Index.customerRoutes. intros H Hbs.
  repeat case_match; simplify_eq; try done; simpl.
  - by eapply put_review_seeded.
  - by eapply delete_review_seeded.
Qed.

Lemma generalRoutes_books st sess req st' sess' out :
  Index.generalRoutes toLowerCase clock st sess req = Some (st', sess', out) →
  Index.st_books st' = Index.st_books st.
Proof.
  unfold Index.generalRoutes. intros H.
  repeat case_match; by simplify_eq.
Qed.

Lemma app_seeded st sess req st' sess' out :
  app st sess req = (st', sess', out) →
  Spec.seeded (Index.st_books st) → Spec.seeded (Index.st_books st').
Proof.
  unfold Index.app. intros H Hbs.
  destruct (Index.gate _ _ _ _ _ _) as [user|st1 sess1 out1] eqn:Hg.
  - unfold Index.routes, Index.layers, Index.dispatch in H.
    destruct (Index.customerRoutes _ _ _ _ _ _)
      as [[[st1 sess1] out1]|] eqn:Hc.
    { apply customerRoutes_seeded in Hc; [|done].
      destruct out1; by simplify_eq. }
    destruct (Index.generalRoutes _ _ _ _ _) as [[[st1 sess1] out1]|] eqn:Hr.
    + apply generalRoutes_books in Hr.
      destruct out1; simplify_eq; by rewrite Hr.
    + by simplify_eq.
  - unfold Index.gate in Hg. repeat case_match; by simplify_eq.
Qed.

End Application.

Lemma gate_guards_customer_auth_witness :
  Index.under_auth (path Sample.get_profile) = true
  ∧ Spec.answered (Sample.app Sample.clock Index.boot None Sample.get_profile).2
      401 "error" (JStr (lit "No active session"))
  ∧ Spec.answered
      (Sample.app Sample.clock Index.boot (Some Sample.forged)
                  Sample.get_profile).2
      403 "error" (JStr (lit "Invalid token"))
  ∧ Spec.answered
      (Sample.app Sample.late Index.boot (Some Sample.session)
                  Sample.get_profile).2
      403 "error" (JStr (lit "Token expired"))
  ∧ Sample.app Sample.clock Index.boot (Some Sample.session) Sample.get_profile
    = Index.routes Sample.jwt_sign Sample.toLowerCase Sample.env Sample.clock
        Index.boot (Some Sample.session) Sample.get_profile.
Proof.
  assert (Index.under_auth (path Sample.get_profile) = true) as Hp
    by reflexivity.
  split; [exact Hp|]. unfold Sample.app. split; [|split; [|split]].
  - destruct (proj1 (gate_guards_customer_auth Sample.jwt_sign
        Sample.jwt_verify Sample.toLowerCase Sample.env Sample.clock
        Index.boot None Sample.get_profile Hp) eq_refl)
      as (r & _ & -> & Hs & He).
    exists r. by repeat split.
  - destruct (proj1 (proj2 (gate_guards_customer_auth Sample.jwt_sign
        Sample.jwt_verify Sample.toLowerCase Sample.env Sample.clock
        Index.boot (Some Sample.forged) Sample.get_profile Hp))
        Sample.forged (lit "JsonWebTokenError") eq_refl eq_refl)
      as (r & _ & -> & Hs & _ & He).
    exists r. repeat split; [done|]. by apply He.
  - destruct (proj1 (proj2 (gate_guards_customer_auth Sample.jwt_sign
        Sample.jwt_verify Sample.toLowerCase Sample.env Sample.late
        Index.boot (Some Sample.session) Sample.get_profile Hp))
        Sample.session (lit "TokenExpiredError") eq_refl eq_refl)
      as (r & _ & -> & Hs & He & _).
    exists r. repeat split; [done|]. by apply He.
  - exact (proj2 (proj1 (proj2 (proj2 (gate_guards_customer_auth
        Sample.jwt_sign Sample.jwt_verify Sample.toLowerCase Sample.env
        Sample.clock Index.boot (Some Sample.session) Sample.get_profile Hp)))
        Sample.session Sample.alice eq_refl eq_refl)).
Defined.

Lemma profile_never_fails_witness :
  Sample.jwt_verify (accessToken (Sample.session_of "mallory"))
    (AuthUsers.secret Sample.env) (Date_now Sample.clock)
  = Decoded (Sample.claims_of "mallory")
  ∧ ¬ Spec.registered (Index.st_users Index.boot) (lit "mallory")
  ∧ ∃ r, Sample.app Sample.clock Index.boot
           (Some (Sample.session_of "mallory")) Sample.get_profile
         = (Index.boot, Some (Sample.session_of "mallory"), Reply r)
         ∧ status r = 200
         ∧ Spec.data_field r "username" = Some (JStr (lit "mallory"))
         ∧ Spec.data_field r "registeredAt" = Some (JStr (lit "Unknown")).
Proof.
  assert (¬ Spec.registered (Index.st_users Index.boot) (lit "mallory"))
    as Hfree.
  { intros (x & Hx & _). by apply elem_of_nil in Hx. }
  split; [reflexivity|]. split; [exact Hfree|].
  destruct (profile_never_fails Sample.jwt_sign Sample.jwt_verify
              Sample.toLowerCase Sample.env Sample.clock Index.boot
              (Sample.session_of "mallory") (Sample.claims_of "mallory")
              Sample.no_body
              eq_refl)
    as (r & Happ & Hs & Hu & _ & Hr).
  exists r. split; [exact Happ|]. split; [exact Hs|]. split; [exact Hu|].
  exact (Hr Hfree).
Defined.

(* ===================================================================== *)
(** * The states the server reaches *)
(* ===================================================================== *)

Section Reachable.
Variable jwt_sign : Payload → str → str.
Variable jwt_verify : str → str → Z → Verdict.
Variable toLowerCase : str → str.

Abbreviation reachable := (Spec.reachable jwt_sign jwt_verify toLowerCase).

(** In every reachable state the usernames are pairwise different and
    every stored user passed the validators. *)
Lemma reachable_users (st : Index.Store) :
  reachable st →
  Spec.unique_usernames (Index.st_users st)
  ∧ Forall Spec.well_formed (Index.st_users st).
Proof.
  induction 1 as [|st env clock sess req st' sess' out _ [IHu IHw] Hstep].
  - split; [apply NoDup_nil_2 | apply Forall_nil_2].
  - apply app_users in Hstep as [->|(_ & _ & Hr)]; [done|].
    apply register_users in Hr
      as [[-> _]|(u & p & _ & _ & Hu & Hp & Hn & -> & _)]; [done|].
    split; [by apply unique_usernames_snoc|].
    apply Forall_app. split; [done|]. by apply Forall_singleton.
Qed.

(** In every reachable state the catalog holds the seeded books, changed
    in their reviews only, and no stored review is empty. *)
Lemma reachable_seeded (st : Index.Store) :
  reachable st → Spec.seeded (Index.st_books st).
Proof.
  induction 1 as [|st env clock sess req st' sess' out _ IH Hstep].
  - apply seeded_books.
  - by eapply app_seeded.
Qed.



End Reachable.


(* ===================================================================== *)
(** * More of the catalog store and of the routes *)
(* ===================================================================== *)

Lemma searchByAuthor_lookup (toLowerCase : str → str)
    (bs : gmap str Book) (s : str) :
  bs !! proto_key = None →
  ∀ isbn b,
    searchByAuthor toLowerCase bs s !! isbn = Some b
    ↔ bs !! isbn = Some b ∧ Spec.contains_ci toLowerCase (author b) s.
Proof.
  intros Hproto isbn b. unfold searchByAuthor, Spec.contains_ci.
  rewrite (search_fold_lookup
             (λ b, includes (toLowerCase (author b)) (toLowerCase s))) by done.
  by rewrite includes_infix.
Qed.

Lemma searchByTitle_lookup (toLowerCase : str → str)
    (bs : gmap str Book) (s : str) :
  bs !! proto_key = None →
  ∀ isbn b,
    searchByTitle toLowerCase bs s !! isbn = Some b
    ↔ bs !! isbn = Some b ∧ Spec.contains_ci toLowerCase (title b) s.
Proof.
  intros Hproto isbn b. unfold searchByTitle, Spec.contains_ci.
  rewrite (search_fold_lookup
             (λ b, includes (toLowerCase (title b)) (toLowerCase s))) by done.
  by rewrite includes_infix.
Qed.

(** A map is empty exactly when no key passes the test that describes
    its entries. *)
Lemma described_empty (found bs : gmap str Book) (P : Book → Prop) :
  (∀ i b, found !! i = Some b ↔ bs !! i = Some b ∧ P b) →
  found = ∅ ↔ ∀ i b, bs !! i = Some b → ¬ P b.
Proof.
  intros Hiff. rewrite map_empty. split.
  - intros Hnone i b Hb Hp.
    assert (found !! i = Some b) as Hs by (by apply Hiff).
    by rewrite Hnone in Hs.
  - intros Hnone i. destruct (found !! i) as [b|] eqn:Hb; [|done].
    apply Hiff in Hb as [Hb Hp]. by destruct (Hnone i b Hb).
Qed.

(** [searchByTitle] keeps exactly the books whose title contains the
    query as a case-insensitive substring, and returns the empty object
    exactly when no title does.  Stated for catalogs without an own key
    [__proto__]. *)
Theorem searchByTitle_exact (toLowerCase : str → str)
    (bs : gmap str Book) (s : str) :
  bs !! proto_key = None →
  (∀ isbn b,
     searchByTitle toLowerCase bs s !! isbn = Some b
     ↔ bs !! isbn = Some b ∧ Spec.contains_ci toLowerCase (title b) s)
  ∧ (searchByTitle toLowerCase bs s = ∅
     ↔ ∀ isbn b, bs !! isbn = Some b →
                 ¬ Spec.contains_ci toLowerCase (title b) s).
Proof.
  intros Hproto. split; [by apply searchByTitle_lookup|].
  apply described_empty. by apply searchByTitle_lookup.
Qed.

Lemma searchByTitle_exact_witness :
  books !! proto_key = None
  ∧ searchByTitle Sample.toLowerCase books (lit "SAGA") !! lit "7"
    = books !! lit "7"
  ∧ searchByTitle Sample.toLowerCase books (lit "NJ" ++ [193] ++ lit "L")
    = {[ lit "7" := seed (lit "Unknown") (lit "Nj" ++ [225] ++ lit "l's Saga")
                      ["Saga"; "Historical"]%string 1280 4.1%Q ]}.
Proof.
  assert (books !! proto_key = None) as Hp by (by vm_compute).
  split; [exact Hp|]. split; [|by vm_compute].
  apply (proj1 (searchByTitle_exact Sample.toLowerCase books (lit "SAGA") Hp)).
  split; [by vm_compute|]. unfold Spec.contains_ci.
  exists (lit "nj" ++ [225] ++ lit "l's "), []. by vm_compute.
Defined.

Section SearchRoutes.
Variable toLowerCase : str → str.
Variable clock : Clock.

Lemma search_route_answers (what code : string) (no_match : str)
    (search : str → gmap str Book) (q : str) :
  trim q ≠ [] →
  (search (trim q) = ∅ →
     Spec.answered (General.search_route clock what code no_match search q)
       404 "error" (JStr (lit "NO_BOOKS_FOUND")))
  ∧ (search (trim q) ≠ ∅ →
     ∃ r, General.search_route clock what code no_match search q = Reply r
          ∧ status r = 200
          ∧ field "data" (body r) = Some (JBooks (search (trim q)))
          ∧ field "count" (body r)
            = Some (JNum (Z.of_nat (size (search (trim q)))))).
Proof.
  intros Hq. unfold General.search_route.
  assert (truthy q = true) as Ht.
  { destruct q; [|done]. by destruct Hq. }
  rewrite Ht, bool_decide_eq_false_2 by done. cbn [negb orb].
  split.
  - intros ->. rewrite map_size_empty. cbn [Nat.eqb].
    eexists. split; [reflexivity|]. by split.
  - intros Hne. destruct (size _ =? 0)%nat eqn:Hs.
    + apply Nat.eqb_eq, map_size_empty_iff in Hs. done.
    + eexists. split; [reflexivity|]. by repeat split.
Qed.

Lemma search_route_blank (what code : string) (no_match : str)
    (search : str → gmap str Book) (q : str) :
  trim q = [] →
  Spec.answered (General.search_route clock what code no_match search q)
    400 "error" (JStr (lit code)).
Proof.
  intros Hq. unfold General.search_route.
  rewrite (bool_decide_eq_true_2 _ Hq), orb_true_r.
  eexists. split; [reflexivity|]. by split.
Qed.

(** GET /author/:author: a parameter that is blank once trimmed is
    answered 400 MISSING_AUTHOR; otherwise the search runs on the trimmed
    parameter, and the answer is 404 NO_BOOKS_FOUND when no author contains
    it, and 200 with exactly the books whose author contains it, and their
    number, when some does. *)
Theorem get_author_answers (bs : gmap str Book) (q : str) :
  bs !! proto_key = None →
  (trim q = [] →
     Spec.answered (General.get_author toLowerCase clock bs q)
       400 "error" (JStr (lit "MISSING_AUTHOR")))
  ∧ (trim q ≠ [] →
     (∀ isbn b, bs !! isbn = Some b →
                ¬ Spec.contains_ci toLowerCase (author b) (trim q)) →
     Spec.answered (General.get_author toLowerCase clock bs q)
       404 "error" (JStr (lit "NO_BOOKS_FOUND")))
  ∧ (trim q ≠ [] →
     ∀ isbn b, bs !! isbn = Some b →
       Spec.contains_ci toLowerCase (author b) (trim q) →
       ∃ r found,
         General.get_author toLowerCase clock bs q = Reply r
         ∧ status r = 200
         ∧ field "data" (body r) = Some (JBooks found)
         ∧ field "count" (body r) = Some (JNum (Z.of_nat (size found)))
         ∧ found !! isbn = Some b
         ∧ ∀ i b', found !! i = Some b'
                   ↔ bs !! i = Some b'
                     ∧ Spec.contains_ci toLowerCase (author b') (trim q)).
Proof.
  intros Hproto.
  pose proof (searchByAuthor_lookup toLowerCase bs (trim q) Hproto) as Hiff.
  unfold General.get_author. split; [apply search_route_blank|]. split.
  - intros Hq Hnone. apply search_route_answers; [done|].
    exact (proj2 (described_empty _ bs
                    (λ b, Spec.contains_ci toLowerCase (author b) (trim q))
                    Hiff) Hnone).
  - intros Hq isbn b Hb Hc.
    assert (searchByAuthor toLowerCase bs (trim q) !! isbn = Some b) as Hs
      by (by apply Hiff).
    destruct (search_route_answers "Author" "MISSING_AUTHOR"
                (lit "No books found by author containing " ++ [34])
                (searchByAuthor toLowerCase bs) q Hq) as [_ H200].
    destruct H200 as (r & Hr & Hst & Hd & Hn).
    { intros He. by rewrite He in Hs. }
    exists r, (searchByAuthor toLowerCase bs (trim q)).
    split; [exact Hr|]. do 4 (split; [done|]). exact Hiff.
Qed.

(** GET /title/:title: a parameter that is blank once trimmed is
    answered 400 MISSING_TITLE; otherwise the search runs on the trimmed
    parameter, and the answer is 404 NO_BOOKS_FOUND when no title contains
    it, and 200 with exactly the books whose title contains it, and their
    number, when some does. *)
Theorem get_title_answers (bs : gmap str Book) (q : str) :
  bs !! proto_key = None →
  (trim q = [] →
     Spec.answered (General.get_title toLowerCase clock bs q)
       400 "error" (JStr (lit "MISSING_TITLE")))
  ∧ (trim q ≠ [] →
     (∀ isbn b, bs !! isbn = Some b →
                ¬ Spec.contains_ci toLowerCase (title b) (trim q)) →
     Spec.answered (General.get_title toLowerCase clock bs q)
       404 "error" (JStr (lit "NO_BOOKS_FOUND")))
  ∧ (trim q ≠ [] →
     ∀ isbn b, bs !! isbn = Some b →
       Spec.contains_ci toLowerCase (title b) (trim q) →
       ∃ r found,
         General.get_title toLowerCase clock bs q = Reply r
         ∧ status r = 200
         ∧ field "data" (body r) = Some (JBooks found)
         ∧ field "count" (body r) = Some (JNum (Z.of_nat (size found)))
         ∧ found !! isbn = Some b
         ∧ ∀ i b', found !! i = Some b'
                   ↔ bs !! i = Some b'
                     ∧ Spec.contains_ci toLowerCase (title b') (trim q)).
Proof.
  intros Hproto.
  pose proof (searchByTitle_lookup toLowerCase bs (trim q) Hproto) as Hiff.
  unfold General.get_title. split; [apply search_route_blank|]. split.
  - intros Hq Hnone. apply search_route_answers; [done|].
    exact (proj2 (described_empty _ bs
                    (λ b, Spec.contains_ci toLowerCase (title b) (trim q))
                    Hiff) Hnone).
  - intros Hq isbn b Hb Hc.
    assert (searchByTitle toLowerCase bs (trim q) !! isbn = Some b) as Hs
      by (by apply Hiff).
    destruct (search_route_answers "Title" "MISSING_TITLE"
                (lit "No books found with title containing " ++ [34])
                (searchByTitle toLowerCase bs) q Hq) as [_ H200].
    destruct H200 as (r & Hr & Hst & Hd & Hn).
    { intros He. by rewrite He in Hs. }
    exists r, (searchByTitle toLowerCase bs (trim q)).
    split; [exact Hr|]. do 4 (split; [done|]). exact Hiff.
Qed.
End SearchRoutes.

Lemma get_author_answers_witness :
  books !! proto_key = None
  ∧ Spec.answered
      (General.get_author Sample.toLowerCase Sample.clock books (lit "   "))
      400 "error" (JStr (lit "MISSING_AUTHOR"))
  ∧ ∃ r found,
      General.get_author Sample.toLowerCase Sample.clock books (lit " AUSTEN ")
      = Reply r
      ∧ status r = 200
      ∧ field "data" (body r) = Some (JBooks found)
      ∧ field "count" (body r) = Some (JNum (Z.of_nat (size found)))
      ∧ found !! lit "8" = books !! lit "8".
Proof.
  assert (books !! proto_key = None) as Hp by (by vm_compute).
  destruct (get_author_answers Sample.toLowerCase Sample.clock books
              (lit "   ") Hp) as (H400 & _).
  destruct (get_author_answers Sample.toLowerCase Sample.clock books
              (lit " AUSTEN ") Hp) as (_ & _ & H200).
  split; [exact Hp|]. split; [apply H400; by vm_compute|].
  destruct (H200 ltac:(by vm_compute) (lit "8")
              (seed (lit "Jane Austen") (lit "Pride and Prejudice")
                    ["Romance"; "Classic"]%string 1813 4.8%Q))
    as (r & found & Hr & Hs & Hd & Hn & Hf & _).
  - by vm_compute.
  - exists (lit "jane "), []. by vm_compute.
  - exists r, found. do 4 (split; [done|]). rewrite Hf. by vm_compute.
Defined.

Lemma get_title_answers_witness :
  books !! proto_key = None
  ∧ Spec.answered
      (General.get_title Sample.toLowerCase Sample.clock books (lit "dune"))
      404 "error" (JStr (lit "NO_BOOKS_FOUND"))
  ∧ ∃ r found,
      General.get_title Sample.toLowerCase Sample.clock books (lit "the EPIC")
      = Reply r
      ∧ status r = 200
      ∧ field "data" (body r) = Some (JBooks found)
      ∧ field "count" (body r) = Some (JNum (Z.of_nat (size found)))
      ∧ found !! lit "4" = books !! lit "4".
Proof.
  assert (books !! proto_key = None) as Hp by (by vm_compute).
  destruct (get_title_answers Sample.toLowerCase Sample.clock books
              (lit "dune") Hp) as (_ & H404 & _).
  destruct (get_title_answers Sample.toLowerCase Sample.clock books
              (lit "the EPIC") Hp) as (_ & _ & H200).
  split; [exact Hp|]. split.
  - apply H404; [by vm_compute|]. intros isbn b Hb Hc.
    assert (searchByTitle Sample.toLowerCase books (trim (lit "dune")) = ∅) as He
      by (vm_compute; reflexivity).
    pose proof (proj2 (searchByTitle_lookup Sample.toLowerCase books
                         (trim (lit "dune")) Hp isbn b) (conj Hb Hc)) as Hs.
    rewrite He, lookup_empty in Hs. discriminate Hs.
  - destruct (H200 ltac:(by vm_compute) (lit "4")
                (seed (lit "Unknown") (lit "The Epic Of Gilgamesh")
                      ["Epic Poetry"; "Ancient"]%string (-2100) 4.2%Q))
      as (r & found & Hr & Hs & Hd & Hn & Hf & _).
    + by vm_compute.
    + exists [], (lit " of gilgamesh"). by vm_compute.
    + exists r, found. do 4 (split; [done|]). rewrite Hf. by vm_compute.
Defined.

(** ** GET /isbn/:isbn *)

(** GET /isbn/:isbn: a parameter that is blank once trimmed is answered
    400 MISSING_ISBN; otherwise the book is looked up under the parameter
    as it came, not trimmed: a key of the catalog is answered 200 with its
    book, a string that is no key 404 BOOK_NOT_FOUND with the store's
    message, unless it names a member of [Object.prototype], which is
    answered 200 with that member for a book. *)
Theorem get_isbn_answers (bs : gmap str Book) (isbn : str) :
  (trim isbn = [] →
     Spec.answered (General.get_isbn bs isbn)
       400 "error" (JStr (lit "MISSING_ISBN")))
  ∧ (∀ b, trim isbn ≠ [] → bs !! isbn = Some b →
       ∃ r, General.get_isbn bs isbn = Reply r
            ∧ status r = 200
            ∧ field "data" (body r) = Some (JBook (Own b))
            ∧ field "isbn" (body r) = Some (JStr isbn))
  ∧ (trim isbn ≠ [] → bs !! isbn = None → inherited isbn = false →
       ∃ r, General.get_isbn bs isbn = Reply r
            ∧ status r = 404
            ∧ field "error" (body r) = Some (JStr (lit "BOOK_NOT_FOUND"))
            ∧ field "message" (body r)
              = Some (JStr (lit "Book with ISBN " ++ isbn ++ lit " not found"))
            ∧ field "requestedIsbn" (body r) = Some (JStr isbn))
  ∧ (trim isbn ≠ [] → bs !! isbn = None → inherited isbn = true →
       ∃ r, General.get_isbn bs isbn = Reply r
            ∧ status r = 200
            ∧ field "data" (body r) = Some (JBook (Inherited isbn))).
Proof.
  unfold General.get_isbn, getBookByISBN.
  split; [|split; [|split]].
  - intros Hq. rewrite (bool_decide_eq_true_2 _ Hq), orb_true_r.
    eexists. split; [reflexivity|]. by split.
  - intros b Hq Hb. assert (truthy isbn = true) as ->.
    { destruct isbn; [|done]. by destruct Hq. }
    rewrite bool_decide_eq_false_2 by done. rewrite (get_own _ _ _ Hb).
    eexists. split; [reflexivity|]. by repeat split.
  - intros Hq Hb Hi. assert (truthy isbn = true) as ->.
    { destruct isbn; [|done]. by destruct Hq. }
    rewrite bool_decide_eq_false_2 by done. rewrite (get_absent _ _ Hb Hi).
    eexists. split; [reflexivity|]. by repeat split.
  - intros Hq Hb Hi. assert (truthy isbn = true) as ->.
    { destruct isbn; [|done]. by destruct Hq. }
    rewrite bool_decide_eq_false_2 by done. rewrite (get_inherited _ _ Hb Hi).
    eexists. split; [reflexivity|]. by repeat split.
Qed.

(** ** Adding and deleting a review *)

Lemma with_reviews_same (b : Book) : with_reviews b (reviews b) = b.
Proof. by destruct b. Qed.

(** Deleting a review that was just written removes the entry
    altogether: the reviews of the book are those it had before the write,
    without an entry for the user, whether or not the write replaced an
    earlier text; when the user had no review before, the catalog is again
    what it was. *)
Theorem addReview_then_deleteReview
    (bs : gmap str Book) (isbn username text : str) (b : Book) :
  bs !! isbn = Some b →
  username ≠ proto_key →
  text ≠ [] →
  ∃ b', deleteReview (addReview bs isbn username text).1 isbn username
        = (<[isbn := b']> bs, Resolved b')
        ∧ b' = with_reviews b (delete username (reviews b))
        ∧ getReviews (<[isbn := b']> bs) isbn
          = Resolved (Some (delete username (reviews b)))
        ∧ (reviews b !! username = None → <[isbn := b']> bs = bs).
Proof.
  intros Hb Hu Ht. unfold addReview.
  rewrite (get_own _ _ _ Hb). cbn [fst]. unfold deleteReview.
  rewrite (get_own _ _ _ (lookup_insert_eq _ _ _)). cbn [reviews with_reviews].
  rewrite set_insert by auto.
  rewrite (get_own _ _ _ (lookup_insert_eq _ _ _)).
  destruct text as [|c text]; [done|]. cbn [truthy_str truthy negb].
  unfold del. rewrite delete_insert_eq, insert_insert_eq.
  eexists. split; [reflexivity|]. split; [reflexivity|]. split.
  - unfold getReviews. by rewrite (get_own _ _ _ (lookup_insert_eq _ _ _)).
  - intros Hr. rewrite delete_id by done.
    apply insert_id. rewrite Hb. f_equal. by destruct b.
Qed.

Lemma addReview_then_deleteReview_witness :
  books !! lit "1" = Some Sample.things_fall_apart
  ∧ lit "alice" ≠ proto_key
  ∧ (deleteReview (Sample.reviewed "alice" "Good") (lit "1") (lit "alice")).1
    = books.
Proof.
  assert (books !! lit "1" = Some Sample.things_fall_apart) as Hb
    by (vm_compute; reflexivity).
  assert (lit "alice" ≠ proto_key) as Hu by (vm_compute; discriminate).
  split; [exact Hb|]. split; [exact Hu|].
  destruct (addReview_then_deleteReview books (lit "1") (lit "alice")
              (lit "Good") Sample.things_fall_apart Hb Hu)
    as (b' & Hd & _ & _ & Hsame).
  - vm_compute; discriminate.
  - unfold Sample.reviewed. rewrite Hd. cbn [fst]. apply Hsame.
    vm_compute; reflexivity.
Defined.

(** ** Where a text occurs *)







(** ** DELETE /customer/auth/review/:isbn *)


(** ** PUT /customer/auth/review/:isbn *)



(** ** Trimming *)

Lemma trimStart_length (s : str) : (length (trimStart s) ≤ length s)%nat.
Proof.
  induction s as [|c s IH]; simpl; [done|]. destruct (is_space c); simpl; lia.
Qed.

Lemma trim_length (s : str) : (length (trim s) ≤ length s)%nat.
Proof.
  unfold trim, trimEnd. rewrite length_rev.
  etransitivity; [apply trimStart_length|]. rewrite length_rev.
  apply trimStart_length.
Qed.

Lemma trimStart_idemp (s : str) : trimStart (trimStart s) = trimStart s.
Proof.
  induction s as [|c s IH]; simpl; [done|].
  destruct (is_space c) eqn:Hc; [done|]. simpl. by rewrite Hc.
Qed.

Lemma trimStart_snoc (s : str) (c : N) :
  is_space c = false → trimStart (s ++ [c]) = trimStart s ++ [c].
Proof.
  intros Hc. induction s as [|x s IH]; simpl; [by rewrite Hc|].
  by destruct (is_space x).
Qed.

Lemma trimEnd_cons (c : N) (s : str) :
  is_space c = false → trimEnd (c :: s) = c :: trimEnd s.
Proof.
  intros Hc. unfold trimEnd. simpl. rewrite trimStart_snoc by done.
  by rewrite rev_app_distr.
Qed.

Lemma trimEnd_idemp (s : str) : trimEnd (trimEnd s) = trimEnd s.
Proof. unfold trimEnd. by rewrite rev_involutive, trimStart_idemp. Qed.

Lemma trim_idemp (s : str) : trim (trim s) = trim s.
Proof.
  unfold trim. destruct (trimStart s) as [|c t] eqn:Hs; [done|].
  assert (is_space c = false) as Hc.
  { clear -Hs. induction s as [|x s IH]; [done|]. simpl in Hs.
    destruct (is_space x) eqn:Hx; [auto|]. by simplify_eq. }
  rewrite trimEnd_cons by done. simpl. rewrite Hc.
  rewrite trimEnd_cons by done. by rewrite trimEnd_idemp.
Qed.

(** What the PUT route stores is a trimmed text. *)
Lemma trim_stored (s : str) :
  trim s ≠ [] → (length s ≤ 1000)%nat → Spec.stored_text (trim s).
Proof.
  intros Hs Hl. split; [done|]. split; [|apply trim_idemp].
  pose proof (trim_length s). lia.
Qed.

Section Requests.
Variable jwt_sign : Payload → str → str.
Variable jwt_verify : str → str → Z → Verdict.
Variable toLowerCase : str → str.
Variable env : Env.
Variable clock : Clock.

(** The segments a route sees are segments of the path. *)
Lemma unslash_subseteq (p q : list str) : unslash p = q → q ⊆ p.
Proof.
  intros H seg Hin. apply unslash_inv in H as [->| ->]; [done|].
  apply elem_of_app. by left.
Qed.

Lemma mounted_subseteq (rest : list str) : mounted rest ⊆ rest.
Proof.
  destruct rest as [|[|c s] rest]; [done| |done].
  intros seg Hin. by apply elem_of_cons; right.
Qed.

(** The four routes of the customer router. *)
Lemma customerRoutes_inv st sess req st1 sess1 out1 :
  Index.customerRoutes jwt_sign env clock st sess req = Some (st1, sess1, out1) →
  (method req = POST ∧ st1 = st
   ∧ AuthUsers.login jwt_sign env clock (Index.st_users st) sess (req_body req)
     = (sess1, out1))
  ∨ (∃ isbn bs, method req = PUT ∧ isbn ≠ [] ∧ isbn ∈ path req ∧ sess1 = sess
       ∧ st1 = Index.mkStore (Index.st_users st) bs
       ∧ AuthUsers.put_review clock (Index.st_books st) sess isbn (req_body req)
         = (bs, out1))
  ∨ (∃ isbn bs, method req = DELETE ∧ isbn ≠ [] ∧ isbn ∈ path req
       ∧ sess1 = sess
       ∧ st1 = Index.mkStore (Index.st_users st) bs
       ∧ AuthUsers.delete_review clock (Index.st_books st) sess isbn = (bs, out1))
  ∨ (handled_as (method req) = GET ∧ st1 = st ∧ sess1 = sess
     ∧ out1 = AuthUsers.profile (Index.st_users st) sess).
Proof.
  unfold Index.customerRoutes. intros H.
  destruct (path req) as [|c rest]; [done|].
  destruct (names c "customer"); [|done].
  destruct (handled_as (method req)) eqn:Hm;
    destruct (unslash (mounted rest)) as [|x [|y [|z [|? ?]]]] eqn:Hu;
    try done.
  all: try (assert (z ∈ c :: rest) as Hin
              by (apply elem_of_cons; right;
                  apply (mounted_subseteq rest), (unslash_subseteq _ _ Hu);
                  set_solver)).
  - right; right; right. destruct (_ && _); by simplify_eq.
  - left. destruct (names x "login"); [|done].
    destruct (AuthUsers.login _ _ _ _ _ _) as [s o] eqn:Hl. simplify_eq.
    split; [by apply handled_as_POST|]. done.
  - right; left. destruct (_ && _ && truthy z) eqn:Hc; [|done].
    apply andb_true_iff in Hc as [_ Hz].
    destruct (AuthUsers.put_review _ _ _ _ _) as [bs o] eqn:Hp. simplify_eq.
    exists z, bs. split; [by destruct (method req)|].
    split; [by destruct z|]. done.
  - right; right; left. destruct (_ && _ && truthy z) eqn:Hc; [|done].
    apply andb_true_iff in Hc as [_ Hz].
    destruct (AuthUsers.delete_review _ _ _ _) as [bs o] eqn:Hp. simplify_eq.
    exists z, bs. split; [by destruct (method req)|].
    split; [by destruct z|]. done.
Qed.

(** The routes of the public router: the registration, and routes that
    read. *)
Lemma generalRoutes_inv st sess req st1 sess1 out1 :
  Index.generalRoutes toLowerCase clock st sess req = Some (st1, sess1, out1) →
  (method req = POST ∧ Spec.routed (path req) ["register"]%string
   ∧ sess1 = sess
   ∧ ∃ us, st1 = Index.mkStore us (Index.st_books st)
           ∧ General.register clock (Index.st_users st) (req_body req)
             = (us, out1))
  ∨ (handled_as (method req) = GET ∧ st1 = st ∧ sess1 = sess
     ∧ ∃ r, out1 = Reply r
            ∧ (status r = 200 ∨ status r = 400 ∨ status r = 404)).
Proof.
  unfold Index.generalRoutes, Spec.routed. intros H.
  destruct (handled_as (method req)) eqn:Hm;
    destruct (unslash (path req)) as [|x [|y [|? ?]]] eqn:Hp; try done.
  - right. simplify_eq. do 3 (split; [done|]).
    unfold General.get_all, getAllBooks, reply. eauto.
  - right. repeat case_match; simplify_eq; do 3 (split; [done|]);
      unfold General.health, General.api_docs, reply; eauto.
  - right.
    assert (∀ out, (∃ r, out = Reply r
                         ∧ (status r = 200 ∨ status r = 400 ∨ status r = 404)) →
                   Some (st, sess, out) = Some (st1, sess1, out1) →
                   GET = GET ∧ st1 = st ∧ sess1 = sess
                   ∧ ∃ r, out1 = Reply r
                          ∧ (status r = 200 ∨ status r = 400 ∨ status r = 404))
      as Hanswer by (intros out Hr Heq; by simplify_eq).
    destruct (negb (truthy y)); [done|].
    repeat case_match; try done; (eapply Hanswer; [|exact H]).
    + unfold General.get_isbn, General.missing, General.book_not_found,
        getBookByISBN, reply.
      repeat case_match; simplify_eq; eauto.
    + unfold General.get_author, General.search_route, General.missing, reply.
      repeat case_match; eauto.
    + unfold General.get_title, General.search_route, General.missing, reply.
      repeat case_match; eauto.
    + unfold General.get_review, General.missing, General.book_not_found,
        getReviews, reply.
      repeat case_match; simplify_eq; eauto.
  - left. destruct (names x "register") eqn:Hn; [|done].
    destruct (General.register _ _ _) as [us o] eqn:Hr. simplify_eq.
    split; [by apply handled_as_POST|]. split; [by repeat constructor|].
    split; [done|]. eauto.
Qed.


(** One request: the gate ends it, or a route of the customer router
    answers it, behind the gate when its path lies under the gate's prefix,
    or a route of the public router does, or the catch-all. *)
Lemma app_inv st sess req st' sess' out :
  Index.app jwt_sign jwt_verify toLowerCase env clock st sess req
    = (st', sess', out) →
  (Index.under_auth (path req) = true ∧ st' = st ∧ sess' = sess
   ∧ ∃ r, Index.authMiddleware jwt_verify env clock sess = inl r
          ∧ out = Reply r)
  ∨ (∃ out1,
       Index.customerRoutes jwt_sign env clock st sess req
         = Some (st', sess', out1)
       ∧ out = Spec.handled env out1
       ∧ (Index.under_auth (path req) = true →
          ∃ a claims, sess = Some a
            ∧ jwt_verify (accessToken a) (AuthUsers.secret env) (Date_now clock)
              = Decoded claims))
  ∨ (∃ out1,
       Index.generalRoutes toLowerCase clock st sess req
         = Some (st', sess', out1)
       ∧ out = Spec.handled env out1)
  ∨ (st' = st ∧ sess' = sess ∧ out = Reply (Index.notFound req)).
Proof.
  unfold Index.app, Index.gate. intros H.
  assert (Index.routes jwt_sign toLowerCase env clock st sess req
            = (st', sess', out) →
          (∃ out1, Index.customerRoutes jwt_sign env clock st sess req
                     = Some (st', sess', out1)
                   ∧ out = Spec.handled env out1)
          ∨ (∃ out1, Index.generalRoutes toLowerCase clock st sess req
                       = Some (st', sess', out1)
                     ∧ out = Spec.handled env out1)
          ∨ (st' = st ∧ sess' = sess ∧ out = Reply (Index.notFound req)))
    as Hroutes.
  { unfold Index.routes, Index.layers, Index.dispatch. intros Hr.
    destruct (Index.customerRoutes _ _ _ _ _ _) as [[[st1 sess1] out1]|].
    { left. exists out1. destruct out1; by simplify_eq. }
    destruct (Index.generalRoutes _ _ _ _ _) as [[[st1 sess1] out1]|].
    { right; left. exists out1. destruct out1; by simplify_eq. }
    right; right. by simplify_eq. }
  destruct (Index.under_auth (path req)) eqn:Hu.
  - destruct (Index.authMiddleware _ _ _ _) as [r|claims] eqn:Hg.
    + left. simplify_eq. do 3 (split; [done|]). by exists r.
    + right. unfold Index.authMiddleware in Hg.
      destruct sess as [a|]; [|done].
      destruct (jwt_verify _ _ _) as [c|] eqn:Hv; [|done].
      destruct (Hroutes H) as [(out1 & Hc & Ho)|[Hg'|Hn]]; [left|by right; left|by right; right].
      exists out1. split; [done|]. split; [done|]. eauto.
  - right. destruct (Hroutes H) as [(out1 & Hc & Ho)|[Hg'|Hn]];
      [left|by right; left|by right; right].
    exists out1. by split.
Qed.


(** ** What each route does *)

Lemma login_inv us sess b sess' out :
  AuthUsers.login jwt_sign env clock us sess b = (sess', out) →
  (sess' = sess ∧ ∃ r, out = Reply r ∧ (status r = 400 ∨ status r = 401))
  ∨ ∃ u p r,
      body_username b = Some u ∧ body_password b = Some p
      ∧ isValidUsername u = true
      ∧ authenticateUser us u p = true
      ∧ sess' = Some (mkAuthorization
                        (jwt_sign (mkPayload u (Date_now clock / 1000)
                                     (Date_now clock / 1000 + 60 * 60))
                                  (AuthUsers.secret env))
                        u (toISOString clock))
      ∧ out = Reply r ∧ status r = 200.
Proof.
  unfold AuthUsers.login, AuthUsers.credentials_required,
    AuthUsers.invalid_username_format, reply. intros H.
  destruct (body_username b) as [u|], (body_password b) as [p|];
    try (left; simplify_eq; split; [done|]; eauto).
  destruct (negb (truthy u) || negb (truthy p));
    [left; simplify_eq; split; [done|]; eauto|].
  destruct (isValidUsername u) eqn:Hu; cbn [negb] in H;
    [|left; simplify_eq; split; [done|]; eauto].
  destruct (authenticateUser us u p) eqn:Ha; cbn [negb] in H;
    [|left; simplify_eq; split; [done|]; eauto].
  right. simplify_eq. by eexists u, p, _.
Qed.

Lemma put_review_inv bs sess isbn b bs' out :
  AuthUsers.put_review clock bs sess isbn b = (bs', out) →
  (sess = None ∧ bs' = bs ∧ ∃ msg, out = NextError msg)
  ∨ (bs' = bs ∧ ∃ r, out = Reply r ∧ (status r = 400 ∨ status r = 404))
  ∨ (bs' = bs ∧ out = Crash ∧ bs !! isbn = None ∧ inherited isbn = true
     ∧ is_Some sess)
  ∨ ∃ a s book r,
      sess = Some a ∧ body_review b = Some s
      ∧ trim s ≠ [] ∧ (length s ≤ 1000)%nat
      ∧ bs !! isbn = Some book
      ∧ bs' = <[isbn := with_reviews book
                          (set (reviews book) (auth_username a) (trim s))]> bs
      ∧ out = Reply r ∧ status r = 200.
Proof.
  unfold AuthUsers.put_review, reply. intros H.
  destruct sess as [a|]; [|left; simplify_eq; eauto].
  right.
  destruct (body_review b) as [s|]; [|left; simplify_eq; eauto].
  destruct (negb (truthy s) || (length (trim s) =? 0)%nat) eqn:Hs;
    [left; simplify_eq; eauto|].
  apply orb_false_iff in Hs as [_ Hs]. apply trim_nonempty in Hs.
  destruct (1000 <? length s)%nat eqn:Hl; [left; simplify_eq; eauto|].
  apply Nat.ltb_ge in Hl. unfold addReview, get in H.
  destruct (bs !! isbn) as [book|] eqn:Hb.
  - right; right. simplify_eq. by eexists a, s, book, _.
  - destruct (inherited isbn) eqn:Hi; simplify_eq.
    + right; left. eauto.
    + left. eauto.
Qed.

Lemma delete_review_inv bs sess isbn bs' out :
  AuthUsers.delete_review clock bs sess isbn = (bs', out) →
  (sess = None ∧ bs' = bs ∧ ∃ msg, out = NextError msg)
  ∨ (bs' = bs ∧ ∃ r, out = Reply r ∧ (status r = 400 ∨ status r = 404))
  ∨ (bs' = bs ∧ out = Crash ∧ bs !! isbn = None ∧ inherited isbn = true
     ∧ is_Some sess)
  ∨ ∃ a book r,
      sess = Some a ∧ bs !! isbn = Some book
      ∧ bs' = <[isbn := with_reviews book
                          (delete (auth_username a) (reviews book))]> bs
      ∧ out = Reply r ∧ status r = 200.
Proof.
  unfold AuthUsers.delete_review, reply. intros H.
  destruct sess as [a|]; [|left; simplify_eq; eauto].
  right. unfold deleteReview in H. unfold get at 1 in H.
  destruct (bs !! isbn) as [book|] eqn:Hb.
  - destruct (negb (truthy_str (get (reviews book) (auth_username a)))).
    + left. simplify_eq. split; [done|]. eexists. split; [done|].
      cbn [status]. destruct (includes _ _); auto.
    + right; right. simplify_eq. by eexists a, book, _.
  - destruct (inherited isbn) eqn:Hi; simplify_eq.
    + right; left. eauto.
    + left. split; [done|]. eexists. split; [done|].
      cbn [status]. destruct (includes _ _); auto.
Qed.




Lemma store_same (st : Index.Store) :
  Index.mkStore (Index.st_users st) (Index.st_books st) = st.
Proof. by destruct st. Qed.

Lemma errorHandler_status msg : status (Index.errorHandler env msg) = 500.
Proof. unfold Index.errorHandler. by case_bool_decide. Qed.

(** ** What a request can change *)


(** ** What the application answers *)



(** ** The session *)


(** ** The reviews *)






(** ** Paths *)

Lemma unslash_param (v : str) : v ≠ [] → unslash [v] = [v].
Proof. by destruct v. Qed.

Lemma unslash_param2 (a v : str) : v ≠ [] → unslash [a; v] = [a; v].
Proof. intros Hv. by rewrite unslash_cons, unslash_param. Qed.

Lemma unslash_param3 (a b v : str) : v ≠ [] → unslash [a; b; v] = [a; b; v].
Proof. intros Hv. by rewrite unslash_cons, unslash_param2. Qed.

Lemma truthy_nonempty (s : str) : s ≠ [] → truthy s = true.
Proof. by destruct s. Qed.

Lemma trim_nonempty_inv (s : str) : trim s ≠ [] → s ≠ [].
Proof. by intros H ->. Qed.

(** A review that passes the checks of the PUT route is stored. *)
Lemma put_review_ok bs a isbn b s book :
  body_review b = Some s → trim s ≠ [] → (length s ≤ 1000)%nat →
  bs !! isbn = Some book →
  ∃ r, AuthUsers.put_review clock bs (Some a) isbn b
       = (<[isbn := with_reviews book
                      (set (reviews book) (auth_username a) (trim s))]> bs,
          Reply r)
       ∧ status r = 200.
Proof.
  intros Hb Hs Hl Hbook. unfold AuthUsers.put_review. rewrite Hb.
  rewrite (truthy_nonempty s (trim_nonempty_inv s Hs)).
  rewrite (proj2 (Nat.eqb_neq _ _)) by (by destruct (trim s)).
  cbn [negb orb]. rewrite (proj2 (Nat.ltb_ge _ _) Hl). unfold addReview.
  rewrite (get_own _ _ _ Hbook). eexists. by split.
Qed.

(** The PUT route behind the mount point of the customer router, for a
    path with or without a second slash after /customer. *)
Lemma customerRoutes_put st sess isbn b (slash : list str) :
  isbn ≠ [] → slash = [] ∨ slash = [[]] →
  Index.customerRoutes jwt_sign env clock st sess
    (mkRequest PUT (lit "customer" :: slash
                    ++ [lit "auth"; lit "review"; isbn]) b)
  = Some (let '(bs, out) :=
            AuthUsers.put_review clock (Index.st_books st) sess isbn b in
          (Index.mkStore (Index.st_users st) bs, sess, out)).
Proof.
  intros Hi Hs. unfold Index.customerRoutes. cbn [path method handled_as].
  change (names (lit "customer") "customer") with true. cbn iota.
  assert (mounted (slash ++ [lit "auth"; lit "review"; isbn])
          = [lit "auth"; lit "review"; isbn]) as ->
    by (by destruct Hs as [-> | ->]).
  rewrite unslash_param3 by done.
  change (names (lit "auth") "auth") with true.
  change (names (lit "review") "review") with true.
  rewrite truthy_nonempty by done. cbn [andb].
  by destruct (AuthUsers.put_review _ _ _ _ _).
Qed.

(** ** The gate and the second slash *)


(** Without a session entry, PUT /customer//auth/review/:isbn reaches
    the route, whose read of the session entry raises; the error handler
    answers 500 and nothing changes.  In production the message is
    "Internal server error" and no stack is sent; elsewhere the message is
    that of the exception. *)
Theorem double_slash_without_session st isbn b :
  isbn ≠ [] →
  ∃ r, Index.app jwt_sign jwt_verify toLowerCase env clock st None
         (mkRequest PUT [lit "customer"; []; lit "auth"; lit "review"; isbn] b)
       = (st, None, Reply r)
       ∧ status r = 500
       ∧ field "success" (body r) = Some (JBool false)
       ∧ (NODE_ENV env = Some (lit "production") →
          field "message" (body r) = Some (JStr (lit "Internal server error"))
          ∧ field "stack" (body r) = None)
       ∧ (NODE_ENV env ≠ Some (lit "production") →
          field "message" (body r) = Some (JStr undefined_username)).
Proof.
  assert (∀ msg,
            field "success" (body (Index.errorHandler env msg))
            = Some (JBool false)
            ∧ (NODE_ENV env = Some (lit "production") →
               field "message" (body (Index.errorHandler env msg))
               = Some (JStr (lit "Internal server error"))
               ∧ field "stack" (body (Index.errorHandler env msg)) = None)
            ∧ (NODE_ENV env ≠ Some (lit "production") →
               field "message" (body (Index.errorHandler env msg))
               = Some (JStr msg))) as Hbody.
  { intros msg. unfold Index.errorHandler. by case_bool_decide. }
  intros Hi. unfold Index.app, Index.gate. cbn [path].
  change (Index.under_auth
            [lit "customer"; []; lit "auth"; lit "review"; isbn])
    with false.
  cbn iota. unfold Index.routes, Index.layers, Index.dispatch.
  pose proof (customerRoutes_put st None isbn b [[]] Hi
                (or_intror eq_refl)) as Hc.
  cbn [List.app] in Hc. rewrite Hc.
  cbn [AuthUsers.put_review]. rewrite store_same.
  eexists. split; [reflexivity|]. split; [apply errorHandler_status|].
  apply Hbody.
Qed.


(** ** Writing a review and reading it back *)

(** A review written through PUT /customer/auth/review/:isbn with a
    token that verifies is read back by anyone through GET /review/:isbn:
    the answer is 200 and its data are the reviews the book had, with the
    trimmed text under the username of the session entry.  Stated for
    usernames other than [__proto__]. *)
Theorem review_round_trip st a claims isbn b s book :
  jwt_verify (accessToken a) (AuthUsers.secret env) (Date_now clock)
    = Decoded claims →
  trim isbn ≠ [] →
  body_review b = Some s → trim s ≠ [] → (length s ≤ 1000)%nat →
  Index.st_books st !! isbn = Some book →
  auth_username a ≠ proto_key →
  ∃ st' r,
    Index.app jwt_sign jwt_verify toLowerCase env clock st (Some a)
      (mkRequest PUT [lit "customer"; lit "auth"; lit "review"; isbn] b)
    = (st', Some a, Reply r)
    ∧ status r = 200
    ∧ Index.st_users st' = Index.st_users st
    ∧ ∀ sess2 b2,
        ∃ r2,
          Index.app jwt_sign jwt_verify toLowerCase env clock st' sess2
            (mkRequest GET [lit "review"; isbn] b2)
          = (st', sess2, Reply r2)
          ∧ status r2 = 200
          ∧ field "data" (body r2)
            = Some (JReviews (<[auth_username a := trim s]> (reviews book)))
          ∧ field "hasReviews" (body r2) = Some (JBool true).
Proof.
  intros Hv Hi Hb Hs Hl Hbook Hu.
  assert (isbn ≠ []) as Hne by (by apply trim_nonempty_inv).
  destruct (put_review_ok (Index.st_books st) a isbn b s book Hb Hs Hl Hbook)
    as (r & Hput & Hr).
  rewrite set_insert in Hput by auto.
  eexists _, r. split; [|split; [exact Hr|split]].
  - unfold Index.app, Index.gate, Index.authMiddleware. cbn [path].
    change (Index.under_auth [lit "customer"; lit "auth"; lit "review"; isbn])
      with true.
    rewrite Hv. unfold Index.routes, Index.layers, Index.dispatch.
    pose proof (customerRoutes_put st (Some a) isbn b [] Hne
                  (or_introl eq_refl)) as Hc.
    cbn [List.app] in Hc. rewrite Hc, Hput. reflexivity.
  - reflexivity.
  - intros sess2 b2. unfold Index.app, Index.gate. cbn [path Index.under_auth].
    unfold Index.routes, Index.layers, Index.dispatch, Index.customerRoutes.
    cbn [path method handled_as].
    change (names (lit "review") "customer") with false. cbn iota.
    unfold Index.generalRoutes. cbn [path method handled_as].
    rewrite unslash_param2 by done. rewrite truthy_nonempty by done.
    cbn [negb].
    change (names (lit "review") "isbn") with false.
    change (names (lit "review") "author") with false.
    change (names (lit "review") "title") with false.
    change (names (lit "review") "review") with true. cbn iota.
    unfold General.get_review. rewrite truthy_nonempty by done.
    rewrite bool_decide_eq_false_2 by done. cbn [negb orb Index.st_books].
    unfold getReviews. rewrite (get_own _ _ _ (lookup_insert_eq _ _ _)).
    cbn [reviews with_reviews].
    assert ((0 <? size (<[auth_username a := trim s]> (reviews book)))%nat
            = true) as ->.
    { apply Nat.ltb_lt, Nat.neq_0_lt_0, map_size_non_empty_iff,
        insert_non_empty. }
    eexists. split; [reflexivity|]. by repeat split.
Qed.

End Requests.


Lemma double_slash_without_session_witness :
  lit "1" ≠ []
  ∧ ∃ r, Sample.app Sample.clock Index.boot None
           (Sample.request PUT ["customer"; EmptyString; "auth"; "review"; "1"]%string
              (Sample.review_body "Great book"))
         = (Index.boot, None, Reply r)
         ∧ status r = 500.
Proof.
  assert (lit "1" ≠ []) as Hi by (vm_compute; discriminate).
  split; [exact Hi|].
  destruct (double_slash_without_session Sample.jwt_sign Sample.jwt_verify
              Sample.toLowerCase Sample.env Sample.clock Index.boot (lit "1")
              (Sample.review_body "Great book") Hi)
    as (r & Happ & Hr & _).
  by exists r.
Defined.

Lemma review_round_trip_witness :
  ∃ st r,
    Sample.app Sample.clock Index.boot (Some Sample.session)
      (Sample.put_review "1" "  Great book ")
    = (st, Some Sample.session, Reply r)
    ∧ status r = 200
    ∧ ∃ r2, Sample.app Sample.late st None
              (Sample.request GET ["review"; "1"]%string Sample.no_body)
            = (st, None, Reply r2)
            ∧ field "data" (body r2)
              = Some (JReviews {[ lit "alice" := lit "Great book" ]}).
Proof.
  destruct (review_round_trip Sample.jwt_sign Sample.jwt_verify
              Sample.toLowerCase Sample.env Sample.clock Index.boot
              Sample.session Sample.alice (lit "1")
              (Sample.review_body "  Great book ") (lit "  Great book ")
              Sample.things_fall_apart)
    as (st & r & Hput & Hr & _ & _).
  - reflexivity.
  - vm_compute; discriminate.
  - reflexivity.
  - vm_compute; discriminate.
  - vm_compute; lia.
  - vm_compute; reflexivity.
  - vm_compute; discriminate.
  - exists st, r. split; [exact Hput|]. split; [exact Hr|].
    vm_compute in Hput. simplify_eq. eexists. split; vm_compute; reflexivity.
Defined.

(* ===================================================================== *)
(** * More of the states the server reaches *)
(* ===================================================================== *)

Lemma authenticateUser_stored (us : list User) (u p : str) :
  authenticateUser us u p = true
  ↔ ∃ x, x ∈ us ∧ username x = u ∧ password x = p.
Proof.
  unfold authenticateUser. rewrite existsb_exists. split.
  - intros (x & Hin & Hx). apply andb_true_iff in Hx as [Hu Hp].
    apply bool_decide_eq_true in Hu, Hp. exists x.
    by rewrite list_elem_of_In.
  - intros (x & Hin & <- & <-). exists x. rewrite <- list_elem_of_In.
    split; [done|]. by rewrite !bool_decide_eq_true_2.
Qed.

Lemma unique_usernames_same (us : list User) (x y : User) :
  Spec.unique_usernames us → x ∈ us → y ∈ us →
  username x = username y → x = y.
Proof.
  unfold Spec.unique_usernames. intros Hnd Hx Hy Heq.
  apply list_elem_of_lookup in Hx as [i Hi], Hy as [j Hj].
  assert (i = j) as ->.
  { apply (NoDup_lookup _ i j (username x) Hnd);
      rewrite list_lookup_fmap; [by rewrite Hi | by rewrite Hj, Heq]. }
  congruence.
Qed.

Lemma seed_reviews_empty : map_Forall (λ _ b, reviews b = ∅) books.
Proof. apply (bool_decide_unpack _). by vm_compute. Qed.

Lemma tidy_books : Spec.tidy books.
Proof.
  intros isbn b u t Hb Hr. rewrite (seed_reviews_empty isbn b Hb) in Hr.
  by rewrite lookup_empty in Hr.
Qed.

Lemma tidy_insert bs isbn b' :
  Spec.tidy bs →
  (∀ u t, reviews b' !! u = Some t → Spec.stored_text t) →
  Spec.tidy (<[isbn := b']> bs).
Proof.
  intros Hbs Hb' i b u t Hi Hr. destruct (decide (i = isbn)) as [->|Hne].
  - rewrite lookup_insert_eq in Hi. simplify_eq. by eapply Hb'.
  - rewrite lookup_insert_ne in Hi by done. by eapply Hbs.
Qed.

Section Reached.
Variable jwt_sign : Payload → str → str.
Variable jwt_verify : str → str → Z → Verdict.
Variable toLowerCase : str → str.

Abbreviation reachable := (Spec.reachable jwt_sign jwt_verify toLowerCase).

Lemma app_tidy env clock st sess req st' sess' out :
  Index.app jwt_sign jwt_verify toLowerCase env clock st sess req
    = (st', sess', out) →
  Spec.tidy (Index.st_books st) → Spec.tidy (Index.st_books st').
Proof.
  intros H Ht. apply app_inv in H
    as [(_ & -> & _)|[(out1 & Hc & _)|[(out1 & Hg & _)|(-> & _)]]];
    try done.
  - apply customerRoutes_inv in Hc
      as [(_ & -> & _)|[(isbn & bs & _ & _ & _ & _ & -> & Hp)
         |[(isbn & bs & _ & _ & _ & _ & -> & Hd)|(_ & -> & _)]]];
      try done; cbn [Index.st_books].
    + apply put_review_inv in Hp
        as [(_ & -> & _)|[(-> & _)|[(-> & _)
           |(a & s & book & r & _ & _ & Hs & Hl & Hb & -> & _)]]];
        try done.
      apply tidy_insert; [done|]. intros u t. cbn [reviews with_reviews].
      unfold set. case_bool_decide; [by apply (Ht isbn book)|].
      destruct (decide (u = auth_username a)) as [->|Hne].
      * rewrite lookup_insert_eq. intros [= <-]. by apply trim_stored.
      * rewrite lookup_insert_ne by done. by apply (Ht isbn book).
    + apply delete_review_inv in Hd
        as [(_ & -> & _)|[(-> & _)|[(-> & _)
           |(a & book & r & _ & Hb & -> & _)]]];
        try done.
      apply tidy_insert; [done|]. intros u t. cbn [reviews with_reviews].
      intros Hr. apply lookup_delete_Some in Hr as [_ Hr].
      by apply (Ht isbn book u).
  - apply generalRoutes_inv in Hg
      as [(_ & _ & _ & us & -> & _)|(_ & -> & _)]; done.
Qed.

Lemma reachable_tidy st : reachable st → Spec.tidy (Index.st_books st).
Proof.
  induction 1 as [|st env clock sess req st' sess' out _ IH Hstep].
  - apply tidy_books.
  - by eapply app_tidy.
Qed.

Lemma seeded_size bs : Spec.seeded bs → size bs = 10%nat.
Proof.
  intros Hs. assert (dom bs = dom books) as Hdom.
  { apply set_eq. intros isbn. rewrite !elem_of_dom.
    specialize (Hs isbn). destruct Hs; split; intros [? ?]; by eauto. }
  rewrite <- size_dom, Hdom, size_dom. by vm_compute.
Qed.

(** ** The catalog *)

(** In every state the server reaches, every stored review is a text as
    the PUT route stores it (not empty, at most 1000 code units, trimmed);
    the catalog holds the seeded ISBNs and no other, each with the
    author, title, genre, year and rating it was seeded with; and GET /
    answers 200 with the catalog and the count 10. *)
Theorem reachable_catalog (st : Index.Store) :
  reachable st →
  Spec.tidy (Index.st_books st)
  ∧ (∀ isbn, is_Some (Index.st_books st !! isbn) ↔ is_Some (books !! isbn))
  ∧ (∀ isbn b, Index.st_books st !! isbn = Some b →
       ∃ b0, books !! isbn = Some b0
             ∧ author b = author b0 ∧ title b = title b0
             ∧ genre b = genre b0 ∧ year b = year b0 ∧ rating b = rating b0)
  ∧ ∀ env clock sess b,
      ∃ r, Index.app jwt_sign jwt_verify toLowerCase env clock st sess
             (mkRequest GET [] b)
           = (st, sess, Reply r)
           ∧ status r = 200
           ∧ field "data" (body r) = Some (JBooks (Index.st_books st))
           ∧ field "count" (body r) = Some (JNum 10).
Proof.
  intros Hst. pose proof (reachable_seeded _ _ _ st Hst) as Hseed.
  split; [by apply reachable_tidy|]. split; [|split].
  - intros isbn. specialize (Hseed isbn).
    destruct Hseed; split; intros [? ?]; by eauto.
  - intros isbn b Hb. specialize (Hseed isbn). rewrite Hb in Hseed.
    inversion Hseed as [? b0 [Hcopy _] Heq1 Heq2|]. exists b0.
    split; [done|]. rewrite Hcopy. by repeat split.
  - intros env clock sess b. eexists. split; [reflexivity|].
    split; [done|]. split; [done|]. cbn.
    unfold General.count. by rewrite (seeded_size _ Hseed).
Qed.

(** ** Logging in *)

(** In every state the server reaches, a login is answered 200 exactly
    when its username and password are those of a stored user, and at most
    one password logs a username in. *)
Theorem login_iff_registered (st : Index.Store) :
  reachable st →
  (∀ env clock sess u p review,
     (∃ x, x ∈ Index.st_users st ∧ username x = u ∧ password x = p)
     ↔ Spec.answered
         (AuthUsers.login jwt_sign env clock (Index.st_users st) sess
            (mkBody (Some u) (Some p) review)).2
         200 "message" (JStr (lit "Login successful")))
  ∧ (∀ u p p',
       authenticateUser (Index.st_users st) u p = true →
       authenticateUser (Index.st_users st) u p' = true → p = p').
Proof.
  intros Hst. destruct (reachable_users _ _ _ st Hst) as [Hun Hwf]. split.
  - intros env clock sess u p review. split.
    + intros (x & Hx & <- & <-).
      rewrite Forall_forall in Hwf. destruct (Hwf x Hx) as [Hu Hp].
      unfold AuthUsers.login. cbn [body_username body_password].
      rewrite (valid_username_truthy _ Hu), (valid_password_truthy _ Hp), Hu.
      cbn [negb orb].
      rewrite (proj2 (authenticateUser_stored _ _ _)) by eauto.
      cbn [negb snd]. eexists. split; [reflexivity|]. by split.
    + intros (r & Hout & Hs & _).
      destruct (AuthUsers.login _ _ _ _ _ _) as [sess' out] eqn:Hl.
      cbn [snd] in Hout. subst out. apply login_inv in Hl
        as [(_ & r' & [= <-] & [Hr|Hr])|(u' & p' & r' & Hu & Hp & _ & Ha & _)];
        [by rewrite Hs in Hr|by rewrite Hs in Hr|].
      cbn in Hu, Hp. simplify_eq. by apply authenticateUser_stored.
  - intros u p p' H1 H2.
    apply authenticateUser_stored in H1 as (x & Hx & Hxu & <-).
    apply authenticateUser_stored in H2 as (y & Hy & Hyu & <-).
    f_equal. apply (unique_usernames_same _ _ _ Hun Hx Hy). congruence.
Qed.

End Reached.

(** ** GET /review/:isbn *)

(** GET /review/:isbn: a parameter that is blank once trimmed is
    answered 400 MISSING_ISBN; a key of the catalog 200 with the reviews of
    the book, their number and whether there are any; a string that is no
    key 404 BOOK_NOT_FOUND, with the store's message, or, when it names a
    member of [Object.prototype], with the message of the [TypeError] that
    [Object.keys(undefined)] raises. *)
Theorem get_review_answers (bs : gmap str Book) (isbn : str) :
  (trim isbn = [] →
     Spec.answered (General.get_review bs isbn)
       400 "error" (JStr (lit "MISSING_ISBN")))
  ∧ (∀ b, trim isbn ≠ [] → bs !! isbn = Some b →
       ∃ r, General.get_review bs isbn = Reply r
            ∧ status r = 200
            ∧ field "data" (body r) = Some (JReviews (reviews b))
            ∧ field "count" (body r)
              = Some (JNum (Z.of_nat (size (reviews b))))
            ∧ field "hasReviews" (body r)
              = Some (JBool (bool_decide (reviews b ≠ ∅))))
  ∧ (trim isbn ≠ [] → bs !! isbn = None → inherited isbn = false →
       ∃ r, General.get_review bs isbn = Reply r
            ∧ status r = 404
            ∧ field "error" (body r) = Some (JStr (lit "BOOK_NOT_FOUND"))
            ∧ field "message" (body r)
              = Some (JStr (lit "Book with ISBN " ++ isbn ++ lit " not found")))
  ∧ (trim isbn ≠ [] → bs !! isbn = None → inherited isbn = true →
       ∃ r, General.get_review bs isbn = Reply r
            ∧ status r = 404
            ∧ field "error" (body r) = Some (JStr (lit "BOOK_NOT_FOUND"))
            ∧ field "message" (body r)
              = Some (JStr (lit "Cannot convert undefined or null to object"))).
Proof.
  unfold General.get_review, getReviews.
  split; [|split; [|split]].
  - intros Hq. rewrite (bool_decide_eq_true_2 _ Hq), orb_true_r.
    eexists. split; [reflexivity|]. by split.
  - intros b Hq Hb. rewrite (truthy_nonempty _ (trim_nonempty_inv _ Hq)).
    rewrite bool_decide_eq_false_2 by done. rewrite (get_own _ _ _ Hb).
    eexists. split; [reflexivity|]. do 3 (split; [done|]).
    cbn [body field String.eqb Ascii.eqb Bool.eqb]. do 2 f_equal.
    destruct (decide (reviews b = ∅)) as [->|Hne].
    + by rewrite map_size_empty, bool_decide_eq_false_2 by auto.
    + rewrite bool_decide_eq_true_2 by done.
      by apply Nat.ltb_lt, Nat.neq_0_lt_0, map_size_non_empty_iff.
  - intros Hq Hb Hi. rewrite (truthy_nonempty _ (trim_nonempty_inv _ Hq)).
    rewrite bool_decide_eq_false_2 by done. rewrite (get_absent _ _ Hb Hi).
    eexists. split; [reflexivity|]. by repeat split.
  - intros Hq Hb Hi. rewrite (truthy_nonempty _ (trim_nonempty_inv _ Hq)).
    rewrite bool_decide_eq_false_2 by done. rewrite (get_inherited _ _ Hb Hi).
    eexists. split; [reflexivity|]. by repeat split.
Qed.

(** ** Instances *)





Lemma reachable_catalog_witness :
  ∃ st out,
    Sample.app Sample.clock Index.boot (Some Sample.session)
      (Sample.put_review "1" " Great book ")
    = (st, Some Sample.session, out)
    ∧ Spec.tidy (Index.st_books st)
    ∧ size (Index.st_books st) = 10%nat
    ∧ getReviews (Index.st_books st) (lit "1")
      = Resolved (Some {[ lit "alice" := lit "Great book" ]}).
Proof.
  destruct (Sample.app Sample.clock Index.boot (Some Sample.session)
              (Sample.put_review "1" " Great book "))
    as [[st sess'] out] eqn:H.
  assert (Spec.reachable Sample.jwt_sign Sample.jwt_verify Sample.toLowerCase st)
    as Hst by (eapply Spec.reach_step; [apply Spec.reach_boot|exact H]).
  destruct (reachable_catalog Sample.jwt_sign Sample.jwt_verify
              Sample.toLowerCase st Hst) as (Htidy & _ & _ & Hall).
  destruct (Hall Sample.env Sample.clock None Sample.no_body)
    as (r & Hget & _ & Hdata & Hcount).
  exists st, out. vm_compute in H. simplify_eq.
  split; [reflexivity|]. split; [exact Htidy|].
  split; vm_compute; reflexivity.
Defined.

Lemma login_iff_registered_witness :
  ∃ st out,
    Sample.app Sample.clock Index.boot None
      (Sample.post_register "alice" "secret1")
    = (st, None, out)
    ∧ Spec.answered
        (AuthUsers.login Sample.jwt_sign Sample.env Sample.late
           (Index.st_users st) None (Sample.credentials "alice" "secret1")).2
        200 "message" (JStr (lit "Login successful"))
    ∧ ¬ Spec.answered
        (AuthUsers.login Sample.jwt_sign Sample.env Sample.late
           (Index.st_users st) None (Sample.credentials "alice" "secret2")).2
        200 "message" (JStr (lit "Login successful")).
Proof.
  destruct (Sample.app Sample.clock Index.boot None
              (Sample.post_register "alice" "secret1"))
    as [[st sess'] out] eqn:H.
  assert (Spec.reachable Sample.jwt_sign Sample.jwt_verify Sample.toLowerCase st)
    as Hst by (eapply Spec.reach_step; [apply Spec.reach_boot|exact H]).
  destruct (login_iff_registered Sample.jwt_sign Sample.jwt_verify
              Sample.toLowerCase st Hst) as [Hiff _].
  exists st, out. vm_compute in H. simplify_eq. split; [reflexivity|]. split.
  - apply (Hiff Sample.env Sample.late None (lit "alice") (lit "secret1") None).
    eexists. split; [apply list_elem_of_here|]. by split.
  - intros Hok.
    apply (Hiff Sample.env Sample.late None (lit "alice") (lit "secret2") None)
      in Hok as (x & Hx & _ & Hp).
    apply list_elem_of_singleton in Hx as ->. by vm_compute in Hp.
Defined.

Lemma addReview_stores_witness :
  books !! lit "1" = Some Sample.things_fall_apart
  ∧ getReviews (Sample.reviewed "alice" "Good") (lit "1")
    = Resolved (Some {[ lit "alice" := lit "Good" ]}).
Proof.
  assert (books !! lit "1" = Some Sample.things_fall_apart) as Hb
    by (vm_compute; reflexivity).
  split; [exact Hb|].
  destruct (addReview_stores books (lit "1") (lit "alice") (lit "Good")
              Sample.things_fall_apart Hb) as [Hadd Hget].
  - left. vm_compute; discriminate.
  - unfold Sample.reviewed. rewrite Hadd. cbn [fst]. rewrite Hget.
    vm_compute; reflexivity.
Defined.
